(** * FeynmanMath: credential store, mistake archive and navigation machine

    A shallow embedding of the client-resident persistence layer
    (services/authService.ts), the progression calculator
    (components/AchievementModal.tsx), the give-up trigger of the chat pane
    (components/ChatInterface.tsx) and the navigation handlers of App.tsx,
    followed by the properties of the specification that concern them.

    Conventions.
    - A JavaScript string is a Rocq [string]: the sequence of its UTF-8
      bytes.  [===] on strings is [bool_decide (_ = _)].
    - An optional field ([lastLogin?: number]) is an [option].
    - [Date.now()] and [Math.random()] are inputs of the functions that
      call them.
    - A JavaScript number that holds a count or a time is an integer; the
      two computations on fractions ([Math.random() * 7] and the progress
      percentage) are carried out in binary64 arithmetic, rounding
      included.
    - [localStorage] is a record with one cell per logical key; a cell
      holds the value that [JSON.parse] gives back for the stored text.
    - A thrown [Error] is the left summand of the result. *)

From Stdlib Require Import ZArith NArith QArith Lia.
From stdpp Require Import base option list strings gmap pretty.

Close Scope Q_scope.
Open Scope string_scope.
Open Scope list_scope.

(** ** types.ts *)

Inductive Sender := SenderUser | SenderAI.

Inductive AttachmentType := AttImage | AttFile.

Module Attachment.
Record t := mk {
  type : AttachmentType;
  mimeType : string;
  data : string;
  name : string;
  isText : option bool
}.
End Attachment.

Module Message.
Record t := mk {
  id : string;
  sender : Sender;
  text : string;
  image : option string;
  attachment : option Attachment.t;
  isThinking : option bool
}.
End Message.

Inductive Difficulty := Easy | Medium | Hard.

Module Problem.
Record t := mk {
  id : string;
  topic : string;
  content : string;
  source : option string;
  feynmanExplanation : option string;
  standardSolution : option string;
  difficulty : Difficulty;
  timestamp : option Z;
  chatHistory : option (list Message.t)
}.

(** [{ ...p, timestamp: now }] *)
Definition with_timestamp (p : t) (now : Z) : t :=
  mk (id p) (topic p) (content p) (source p) (feynmanExplanation p)
     (standardSolution p) (difficulty p) (Some now) (chatHistory p).

(** [{ ...p, chatHistory: messages }] *)
Definition with_chatHistory (p : t) (messages : list Message.t) : t :=
  mk (id p) (topic p) (content p) (source p) (feynmanExplanation p)
     (standardSolution p) (difficulty p) (timestamp p) (Some messages).
End Problem.

Inductive AppState :=
  | Login
  | ChangePassword
  | TopicSelection
  | ProblemActive
  | MistakeNotebook
  | CoachDashboard
  | CoachAnalytics.

Inductive UserRole := student | coach.

Module User.
Record t := mk {
  id : string;
  username : string;
  passwordHash : string;
  name : string;
  role : UserRole;
  isFirstLogin : bool;
  lastLogin : option Z;
  loginCount : option nat
}.
End User.

Module UserData.
Record t := mk {
  userId : string;
  mistakes : list Problem.t
}.
End UserData.

Global Instance AppState_eq_dec : EqDecision AppState.
Proof. solve_decision. Defined.
Global Instance UserRole_eq_dec : EqDecision UserRole.
Proof. solve_decision. Defined.

Definition RANDOM_TOPIC : string := "随机挑战".

Definition TOPICS : list string :=
  [ "极限与连续性";
    "导数及其应用";
    "积分及其应用";
    "微分方程";
    "线性代数 (矩阵/行列式)";
    "解析几何";
    "级数与数列";
    "随机挑战" ].

(** ** The platform digest

    [hashPassword] hands the UTF-8 bytes of the password to
    [crypto.subtle.digest('SHA-256', _)] and prints the 32 bytes in
    lower-case hexadecimal, two digits each.  The digest is FIPS 180-4
    SHA-256 over 32-bit words held in [N]. *)

Module Sha256.
Local Open Scope N_scope.

(** [2; 3; ...; n + 1] *)
Definition seq_from_two (n : nat) : list N := N.of_nat <$> seq 2 n.

Definition two32 : N := Eval vm_compute in 2 ^ 32.

Definition w32 (x : N) : N := x mod two32.
Definition add32 (x y : N) : N := w32 (x + y).
Definition rotr (n x : N) : N :=
  N.lor (N.shiftr x n) (w32 (N.shiftl x (32 - n))).
Definition not32 (x : N) : N := N.lxor x (two32 - 1).

Definition Ch (x y z : N) : N := N.lxor (N.land x y) (N.land (not32 x) z).
Definition Maj (x y z : N) : N :=
  N.lxor (N.lxor (N.land x y) (N.land x z)) (N.land y z).
Definition Sigma0 (x : N) : N :=
  N.lxor (N.lxor (rotr 2 x) (rotr 13 x)) (rotr 22 x).
Definition Sigma1 (x : N) : N :=
  N.lxor (N.lxor (rotr 6 x) (rotr 11 x)) (rotr 25 x).
Definition sigma0 (x : N) : N :=
  N.lxor (N.lxor (rotr 7 x) (rotr 18 x)) (N.shiftr x 3).
Definition sigma1 (x : N) : N :=
  N.lxor (N.lxor (rotr 17 x) (rotr 19 x)) (N.shiftr x 10).

(** The first [n] primes among 2 .. 311, by trial division. *)
Definition is_prime (p : N) : bool :=
  forallb (λ d, negb (p mod d =? 0)) (seq_from_two (N.to_nat p - 2)).

Definition primes (n : nat) : list N :=
  take n (List.filter is_prime (seq_from_two 310)).

(** The integer cube root below 2^[bits], one bit at a time. *)
Fixpoint icbrt (bits : nat) (n r : N) : N :=
  match bits with
  | O => r
  | S b =>
      let r' := r + 2 ^ N.of_nat b in
      icbrt b n (if r' * r' * r' <=? n then r' else r)
  end.

(** The round constants: the first 32 bits of the fractional parts of the
    cube roots of the first 64 primes. *)
Definition K : list N :=
  Eval vm_compute in (λ p, w32 (icbrt 35 (p * 2 ^ 96) 0)) <$> primes 64.

(** The initial hash value: the first 32 bits of the fractional parts of
    the square roots of the first 8 primes. *)
Definition H0 : list N :=
  Eval vm_compute in (λ p, w32 (N.sqrt (p * 2 ^ 64))) <$> primes 8.

(** Big-endian bytes of [x], [n] of them. *)
Fixpoint be_bytes (n : nat) (x : N) : list N :=
  match n with
  | O => []
  | S n' => be_bytes n' (x / 256) ++ [x mod 256]
  end.

Definition pad (msg : list N) : list N :=
  let len := N.of_nat (length msg) in
  let zeros := N.to_nat ((55 + 64 - len mod 64) mod 64) in
  msg ++ [128] ++ replicate zeros 0 ++ be_bytes 8 (8 * len).

Fixpoint words (fuel : nat) (bs : list N) : list N :=
  match fuel, bs with
  | S f, b0 :: b1 :: b2 :: b3 :: rest =>
      (((b0 * 256 + b1) * 256 + b2) * 256 + b3) :: words f rest
  | _, _ => []
  end.

Fixpoint blocks (fuel : nat) (ws : list N) : list (list N) :=
  match fuel, ws with
  | S f, _ :: _ => take 16 ws :: blocks f (drop 16 ws)
  | _, _ => []
  end.

Fixpoint schedule (n : nat) (w : list N) : list N :=
  match n with
  | O => w
  | S n' =>
      let t := length w in
      let at_ (k : nat) := nth (t - k) w 0 in
      schedule n'
        (w ++ [add32 (add32 (sigma1 (at_ 2%nat)) (at_ 7%nat))
                     (add32 (sigma0 (at_ 15%nat)) (at_ 16%nat))])
  end.

Definition round (s : list N) (kw : N * N) : list N :=
  match s with
  | [a; b; c; d; e; f; g; h] =>
      let t1 := add32 (add32 (add32 h (Sigma1 e)) (add32 (Ch e f g) kw.1)) kw.2 in
      let t2 := add32 (Sigma0 a) (Maj a b c) in
      [add32 t1 t2; a; b; c; add32 d t1; e; f; g]
  | _ => s
  end.

Definition compress (h : list N) (block : list N) : list N :=
  let w := schedule 48 block in
  zip_with add32 h (foldl round h (zip K w)).

Definition digest (msg : list N) : list N :=
  let bs := pad msg in
  let ws := words (length bs) bs in
  concat (be_bytes 4 <$> foldl compress H0 (blocks (length ws) ws)).
End Sha256.

Definition bytes_of_string (s : string) : list N :=
  (λ c, Ascii.N_of_ascii c) <$> String.list_ascii_of_string s.

Definition hex_digit (n : N) : Ascii.ascii :=
  nth (N.to_nat n) (String.list_ascii_of_string "0123456789abcdef") Ascii.zero.

(** [b.toString(16).padStart(2, '0')] for a byte [b]. *)
Definition hex_byte (b : N) : string :=
  String (hex_digit (b / 16)) (String (hex_digit (b mod 16)) "").

Definition hashPassword (password : string) : string :=
  foldr (λ b acc, hex_byte b +:+ acc) "" (Sha256.digest (bytes_of_string password)).


Global Opaque hashPassword.

(** ** services/authService.ts: the simulated database *)

Definition USERS_KEY : string := "feynman_users".
Definition DATA_KEY : string := "feynman_data".
Definition CURRENT_USER_KEY : string := "feynman_current_user".
Definition LAST_SESSION_PREFIX : string := "feynman_last_session_".

(** [localStorage], one cell per key the program uses.  The three fixed
    keys and the family [LAST_SESSION_PREFIX + userId] never coincide
    (lemmas [fixed_keys_distinct], [session_key_not_fixed] and
    [session_key_inj] below), so the last-session cells are indexed by
    [userId].  [None] and an absent map entry are [getItem] returning
    [null]. *)
Record localStorage := mkStorage {
  users_cell : option (list User.t);
  data_cell : option (list UserData.t);
  current_user_cell : option User.t;
  last_session_cells : gmap string Problem.t
}.

Definition emptyStorage : localStorage := mkStorage None None None ∅.

Definition set_users_cell (v : option (list User.t)) (ls : localStorage) :=
  mkStorage v (data_cell ls) (current_user_cell ls) (last_session_cells ls).
Definition set_data_cell (v : option (list UserData.t)) (ls : localStorage) :=
  mkStorage (users_cell ls) v (current_user_cell ls) (last_session_cells ls).
Definition set_current_user_cell (v : option User.t) (ls : localStorage) :=
  mkStorage (users_cell ls) (data_cell ls) v (last_session_cells ls).
Definition set_last_session_cells (v : gmap string Problem.t) (ls : localStorage) :=
  mkStorage (users_cell ls) (data_cell ls) (current_user_cell ls) v.

(** The messages of the [Error]s the service throws. *)
Inductive Error :=
  | ErrNoSuchUser     (* login: "用户不存在" *)
  | ErrWrongPassword  (* login: "密码错误" *)
  | ErrUserNotFound.  (* updatePassword, resetUserPasswordToUsername: "User not found" *)

(** A service call reads and writes the storage and may throw. *)
Definition Svc (A : Type) : Type := localStorage → Error + (A * localStorage).

Definition svc_ret {A} (a : A) : Svc A := λ ls, inr (a, ls).
Definition svc_bind {A B} (m : Svc A) (k : A → Svc B) : Svc B :=
  λ ls, match m ls with
        | inl e => inl e
        | inr (a, ls') => k a ls'
        end.
Definition throw {A} (e : Error) : Svc A := λ _, inl e.
Definition svc_get : Svc localStorage := λ ls, inr (ls, ls).
Definition svc_modify (f : localStorage → localStorage) : Svc unit :=
  λ ls, inr (tt, f ls).

Declare Scope svc_scope.
Delimit Scope svc_scope with svc.
Notation "x <- m ;; k" := (svc_bind m (λ x, k))
  (at level 100, m at next level, right associativity) : svc_scope.
Notation "m ;;; k" := (svc_bind m (λ _, k))
  (at level 100, right associativity) : svc_scope.

(** [Array.prototype.findIndex]: the first index whose element passes the
    test, with the element found there; [None] is the result [-1]. *)
Definition findIndex {A} (P : A → Prop) `{∀ x, Decision (P x)}
  (l : list A) : option (nat * A) := list_find P l.

(** [Array.prototype.some]. *)
Definition some {A} (P : A → Prop) `{∀ x, Decision (P x)} (l : list A) : Prop :=
  Exists P l.

Definition getDBUsers (ls : localStorage) : list User.t :=
  default [] (users_cell ls).

Definition saveDBUsers (users : list User.t) (ls : localStorage) : localStorage :=
  set_users_cell (Some users) ls.

Definition getDBData (ls : localStorage) : list UserData.t :=
  default [] (data_cell ls).

Definition saveDBData (data : list UserData.t) (ls : localStorage) : localStorage :=
  set_data_cell (Some data) ls.

(** ** services/authService.ts: the auth service *)

Definition initializeAdmin (ls : localStorage) : localStorage :=
  let users := getDBUsers ls in
  let '(users, hasChanges) :=
    if decide (some (λ u, User.username u = "Coach") users) then (users, false)
    else
      (users ++ [User.mk "admin_default" "Coach" (hashPassword "admin123")
                   "竞赛主教练" coach false None None], true) in
  let '(users, hasChanges) :=
    if decide (some (λ u, User.username u = "test") users) then (users, hasChanges)
    else
      (users ++ [User.mk "student_test_default" "test" (hashPassword "test")
                   "测试学生" student false None None], true) in
  if hasChanges then saveDBUsers users ls else ls.

Module LoginResult.
Record t := mk {
  user : User.t;
  previousLogin : option Z
}.
End LoginResult.

Definition login (now : Z) (username password : string) : Svc LoginResult.t :=
  (ls <- svc_get ;;
   let users := getDBUsers ls in
   match findIndex (λ u, User.username u = username) users with
   | None => throw ErrNoSuchUser
   | Some (userIndex, user) =>
       let pHash := hashPassword password in
       if decide (User.passwordHash user ≠ pHash) then throw ErrWrongPassword
       else
         let previousLogin := User.lastLogin user in
         let updatedUser :=
           User.mk (User.id user) (User.username user) (User.passwordHash user)
                   (User.name user) (User.role user) (User.isFirstLogin user)
                   (Some now)
                   (Some (default 0 (User.loginCount user) + 1)) in
         svc_modify (saveDBUsers (<[userIndex := updatedUser]> users)) ;;;
         svc_modify (set_current_user_cell (Some updatedUser)) ;;;
         svc_ret (LoginResult.mk updatedUser previousLogin)
   end)%svc.

Definition logout (ls : localStorage) : localStorage :=
  set_current_user_cell None ls.

Definition getCurrentUser (ls : localStorage) : option User.t :=
  current_user_cell ls.

Definition updatePassword (userId newPassword : string) : Svc User.t :=
  (ls <- svc_get ;;
   let users := getDBUsers ls in
   match findIndex (λ u, User.id u = userId) users with
   | None => throw ErrUserNotFound
   | Some (index, u) =>
       let pHash := hashPassword newPassword in
       let updated :=
         User.mk (User.id u) (User.username u) pHash (User.name u)
                 (User.role u) false (User.lastLogin u) (User.loginCount u) in
       svc_modify (saveDBUsers (<[index := updated]> users)) ;;;
       svc_modify (set_current_user_cell (Some updated)) ;;;
       svc_ret updated
   end)%svc.

Definition resetUserPasswordToUsername (userId : string) : Svc unit :=
  (ls <- svc_get ;;
   let users := getDBUsers ls in
   match findIndex (λ u, User.id u = userId) users with
   | None => throw ErrUserNotFound
   | Some (index, user) =>
       let newHash := hashPassword (User.username user) in
       let updated :=
         User.mk (User.id user) (User.username user) newHash (User.name user)
                 (User.role user) true (User.lastLogin user)
                 (User.loginCount user) in
       svc_modify (saveDBUsers (<[index := updated]> users))
   end)%svc.

Module RawUser.
Record t := mk {
  name : string;
  username : string
}.
End RawUser.

(** [mkId k] is the text the template
    [u_${Date.now()}_${Math.random().toString(36).substr(2, 9)}] yields for
    the entry at position [k] of the batch. *)
Definition registerBatchUsers (mkId : nat → string)
  (newUsersRaw : list RawUser.t) : Svc nat :=
  (ls <- svc_get ;;
   let currentUsers := getDBUsers ls in
   let newUsers :=
     imap (λ k u,
             User.mk (mkId k) (RawUser.username u)
                     (hashPassword (RawUser.username u)) (RawUser.name u)
                     student true None None) newUsersRaw in
   let uniqueNewUsers :=
     filter (λ nu, ¬ some (λ cu, User.username cu = User.username nu) currentUsers)
            newUsers in
   svc_modify (saveDBUsers (currentUsers ++ uniqueNewUsers)) ;;;
   svc_ret (length uniqueNewUsers))%svc.

Definition getStudents (ls : localStorage) : list User.t :=
  filter (λ u, User.role u = student) (getDBUsers ls).

Definition getUserMistakes (userId : string) (ls : localStorage) : list Problem.t :=
  match list_find (λ d, UserData.userId d = userId) (getDBData ls) with
  | Some (_, userData) => UserData.mistakes userData
  | None => []
  end.

Definition saveUserMistakes (userId : string) (mistakes : list Problem.t)
  (ls : localStorage) : localStorage :=
  let allData := getDBData ls in
  match findIndex (λ d, UserData.userId d = userId) allData with
  | Some (index, d) =>
      saveDBData (<[index := UserData.mk (UserData.userId d) mistakes]> allData) ls
  | None =>
      saveDBData (allData ++ [UserData.mk userId mistakes]) ls
  end.

Definition saveLastSession (userId : string) (problem : option Problem.t)
  (ls : localStorage) : localStorage :=
  match problem with
  | Some p => set_last_session_cells (<[userId := p]> (last_session_cells ls)) ls
  | None => set_last_session_cells (delete userId (last_session_cells ls)) ls
  end.

Definition getLastSession (userId : string) (ls : localStorage) : option Problem.t :=
  last_session_cells ls !! userId.

(** ** Binary64 arithmetic

    The result of an arithmetic operation on JavaScript numbers is the exact
    result rounded to the nearest value with 53 significant bits, ties to
    the one with an even last bit.  All quantities below lie in the normal
    exponent range or are multiples of the least subnormal, so rounding an
    integer multiple of a fixed power of two is rounding the integer. *)

Definition round53 (n : N) : N :=
  let bits := N.size n in
  if (bits <=? 53)%N then n
  else
    let s := (bits - 53)%N in
    let q := (n / 2 ^ s)%N in
    let r := (n mod 2 ^ s)%N in
    let half := (2 ^ (s - 1))%N in
    let q' := if (r <? half)%N then q
              else if (half <? r)%N then (q + 1)%N
              else if N.even q then q else (q + 1)%N in
    (q' * 2 ^ s)%N.

(** A double in the interval [0, 1), the range of [Math.random()]: the value
    [mantissa * 2 ^ shift / 2 ^ 1074].  The normal doubles below 1 have
    [2 ^ 52 <= mantissa < 2 ^ 53] and a shift from 0 (exponent -1074) to
    1021 (exponent -53); the subnormal ones and zero have shift 0. *)
Module UnitDouble.
Record t := mk { mantissa : N; shift : N }.

Definition wf (d : t) : Prop := (mantissa d < 2 ^ 53)%N ∧ (shift d ≤ 1021)%N.

(** The value in units of [2 ^ -1074]. *)
Definition scaled (d : t) : N := (mantissa d * 2 ^ shift d)%N.

End UnitDouble.

(** A non-negative double written as [num / 2 ^ scale]. *)
Module Dyadic.
Record t := mk { num : N; scale : N }.

Definition toQ (d : t) : Q :=
  (inject_Z (Z.of_N (num d)) / inject_Z (2 ^ Z.of_N (scale d)))%Q.
End Dyadic.

(** [a / b] for an integer [a] and a positive integer [b]: the quotient is
    computed to more than 55 bits, a last bit records whether anything was
    cut off, and the result is rounded. *)
Definition divide (a b : N) : Dyadic.t :=
  if (a =? 0)%N then Dyadic.mk 0 0
  else
    let k := (55 + N.log2 b - N.log2 a)%N in
    let t := (a * 2 ^ k / b)%N in
    let sticky := if (a * 2 ^ k mod b =? 0)%N then 0%N else 1%N in
    Dyadic.mk (round53 (2 * t + sticky)) (k + 1).

(** [d * k] for an integer [k]. *)
Definition times (d : Dyadic.t) (k : N) : Dyadic.t :=
  Dyadic.mk (round53 (Dyadic.num d * k)) (Dyadic.scale d).

(** [Math.min(k, d)] for an integer [k]. *)
Definition capAt (k : N) (d : Dyadic.t) : Dyadic.t :=
  if (k * 2 ^ Dyadic.scale d <=? Dyadic.num d)%N then Dyadic.mk k 0 else d.

(** ** components/AchievementModal.tsx: the progression calculator *)

Module Badge.
Record t := mk {
  id : string;
  name : string;
  icon : string;
  description : string;
  condition : nat → nat → nat → bool
}.
End Badge.

Definition BADGES : list Badge.t :=
  [ Badge.mk "newbie" "初出茅庐" "🌱" "成功注册并首次登录系统"
      (λ c l t, 1 <=? l)%nat;
    Badge.mk "explorer" "探索者" "🧭" "尝试了3个不同的数学主题"
      (λ c l t, 3 <=? t)%nat;
    Badge.mk "scholar" "勤奋学员" "📚" "累计练习超过 5 道题目"
      (λ c l t, 5 <=? c)%nat;
    Badge.mk "master" "解题大师" "🏆" "累计练习超过 20 道题目"
      (λ c l t, 20 <=? c)%nat;
    Badge.mk "legend" "费曼传奇" "👑" "累计练习超过 50 道题目"
      (λ c l t, 50 <=? c)%nat ].

Definition problemCount (mistakes : list Problem.t) : nat := length mistakes.

(** [user.loginCount || 1]: an absent count and the count 0 both read 1. *)
Definition loginCountOf (user : User.t) : nat :=
  match User.loginCount user with
  | Some (S n) => S n
  | _ => 1
  end.

(** [new Set(mistakes.map(m => m.topic)).size] *)
Definition uniqueTopics (mistakes : list Problem.t) : nat :=
  size (list_to_set (C := gset string) (Problem.topic <$> mistakes)).

Definition level (problemCount : nat) : nat := problemCount / 3 + 1.

Definition nextLevelThreshold (problemCount : nat) : nat := level problemCount * 3.

(** [Math.min(100, ((problemCount - (level - 1) * 3) / 3) * 100)]: the
    difference is an integer, the division and the product round. *)
Definition progressPercent (problemCount : nat) : Dyadic.t :=
  capAt 100
    (times (divide (N.of_nat (problemCount - (level problemCount - 1) * 3)) 3) 100).

Definition unlockedBadgesAt (c l t : nat) : list Badge.t :=
  filter (λ b, Badge.condition b c l t = true) BADGES.

Definition unlockedBadges (user : User.t) (mistakes : list Problem.t) : list Badge.t :=
  unlockedBadgesAt (problemCount mistakes) (loginCountOf user) (uniqueTopics mistakes).

Definition nextBadge (user : User.t) (mistakes : list Problem.t) : option Badge.t :=
  snd <$> list_find
    (λ b, Badge.condition b (problemCount mistakes) (loginCountOf user)
                            (uniqueTopics mistakes) = false) BADGES.

(** ** components/ChatInterface.tsx: the submit handler *)

(** [String.prototype.toLowerCase] on the ASCII range; bytes of other
    characters are kept.  None of the give-up keywords has a letter outside
    that range. *)
Definition lower_ascii (c : Ascii.ascii) : Ascii.ascii :=
  let n := Ascii.N_of_ascii c in
  if ((65 <=? n) && (n <=? 90))%N then Ascii.ascii_of_N (n + 32) else c.

Fixpoint toLowerCase (s : string) : string :=
  match s with
  | EmptyString => EmptyString
  | String c r => String (lower_ascii c) (toLowerCase r)
  end.

(** [s.includes(k)] *)
Fixpoint includes (s k : string) : bool :=
  String.prefix k s ||
  match s with
  | EmptyString => false
  | String _ r => includes r k
  end.

(** The one-byte members of WhiteSpace and LineTerminator: TAB, LF, VT, FF,
    CR and SP. *)
Definition ws1 (b0 : N) : bool :=
  ((9 <=? b0) && (b0 <=? 13) || (b0 =? 32))%N.

(** U+00A0. *)
Definition ws2 (b0 b1 : N) : bool := ((b0 =? 0xC2) && (b1 =? 0xA0))%N.

(** U+1680, U+2000..U+200A, U+2028, U+2029, U+202F, U+205F, U+3000 and
    U+FEFF. *)
Definition ws3 (b0 b1 b2 : N) : bool :=
  (((b0 =? 0xE1) && (b1 =? 0x9A) && (b2 =? 0x80))
   || ((b0 =? 0xE2) && (b1 =? 0x80) && (0x80 <=? b2) && (b2 <=? 0x8A))
   || ((b0 =? 0xE2) && (b1 =? 0x80) && ((b2 =? 0xA8) || (b2 =? 0xA9) || (b2 =? 0xAF)))
   || ((b0 =? 0xE2) && (b1 =? 0x81) && (b2 =? 0x9F))
   || ((b0 =? 0xE3) && (b1 =? 0x80) && (b2 =? 0x80))
   || ((b0 =? 0xEF) && (b1 =? 0xBB) && (b2 =? 0xBF)))%N.

(** [!s.trim()]: the text consists of white space only. *)
Fixpoint blank (s : string) : bool :=
  match s with
  | EmptyString => true
  | String c0 s1 =>
      if ws1 (Ascii.N_of_ascii c0) then blank s1
      else
        match s1 with
        | EmptyString => false
        | String c1 s2 =>
            if ws2 (Ascii.N_of_ascii c0) (Ascii.N_of_ascii c1) then blank s2
            else
              match s2 with
              | EmptyString => false
              | String c2 s3 =>
                  if ws3 (Ascii.N_of_ascii c0) (Ascii.N_of_ascii c1)
                         (Ascii.N_of_ascii c2)
                  then blank s3 else false
              end
        end
  end.

Definition keywords : list string :=
  [ "不会"; "太难"; "不懂"; "放弃"; "没思路"; "很难"; "不知道"; "Help" ].

Module Chat.
Record t := mk {
  messages : list Message.t;
  inputText : string;
  selectedAttachment : option Attachment.t;
  isProcessing : bool
}.
End Chat.

(** The guard at the head of [handleSubmit]: the handler returns at once on
    an empty submission or while a reply is pending. *)
Definition submitRejected (c : Chat.t) : bool :=
  (blank (Chat.inputText c) && negb (bool_decide (is_Some (Chat.selectedAttachment c))))
  || Chat.isProcessing c.

(** [keywords.some(k => inputText.toLowerCase().includes(k.toLowerCase()))] *)
Definition givesUp (inputText : string) : bool :=
  existsb (λ k, includes (toLowerCase inputText) (toLowerCase k)) keywords.

(** Whether [handleSubmit] calls [onAutoSave]; App always passes the prop. *)
Definition callsAutoSave (c : Chat.t) : bool :=
  negb (submitRejected c)
  && negb (bool_decide (is_Some (Chat.selectedAttachment c)))
  && givesUp (Chat.inputText c).

(** The component state [handleSubmit] leaves behind before it awaits the
    tutor's reply. *)
Definition handleSubmit (now : Z) (c : Chat.t) : Chat.t :=
  if submitRejected c then c
  else
    let userMsg :=
      Message.mk (pretty now) SenderUser (Chat.inputText c) None
                 (Chat.selectedAttachment c) None in
    Chat.mk (Chat.messages c ++ [userMsg]) "" None true.

(** ** services/geminiService.ts: the problem generator at its interface *)

Module GenResponse.
Record t := mk {
  problemStatement : string;
  source : string;
  feynmanExplanation : string;
  standardSolution : string
}.
End GenResponse.

(** [response] is the parsed reply of the provider, or [None] when the
    call or the parsing throws and the [catch] branch builds the fallback. *)
Definition generateMathProblem (response : option GenResponse.t) (now : Z)
  (topic : string) : Problem.t :=
  match response with
  | Some parsed =>
      Problem.mk (pretty now) topic (GenResponse.problemStatement parsed)
        (Some (GenResponse.source parsed))
        (Some (GenResponse.feynmanExplanation parsed))
        (Some (GenResponse.standardSolution parsed))
        Medium None None
  | None =>
      Problem.mk (pretty now) topic
        "生成题目时遇到问题，请重试。请确认云托管环境变量 VITE_API_KEY 已配置。"
        None None None Medium None None
  end.

(** ** App.tsx: the navigation state machine *)

(** The [useState] cells of [App] that the flow depends on (the pane height
    and the drag flag are layout only). *)
Record App := mkApp {
  currentUser : option User.t;
  appState : AppState;
  currentProblem : option Problem.t;
  loading : bool;
  activeMistakes : list Problem.t;
  showAchievements : bool;
  previousLoginTime : option Z;
  selectedStudent : option User.t
}.

Definition initialApp : App := mkApp None Login None false [] false None None.

Definition setCurrentUser (v : option User.t) (a : App) : App :=
  mkApp v (appState a) (currentProblem a) (loading a) (activeMistakes a)
        (showAchievements a) (previousLoginTime a) (selectedStudent a).
Definition setAppState (v : AppState) (a : App) : App :=
  mkApp (currentUser a) v (currentProblem a) (loading a) (activeMistakes a)
        (showAchievements a) (previousLoginTime a) (selectedStudent a).
Definition setCurrentProblem (v : option Problem.t) (a : App) : App :=
  mkApp (currentUser a) (appState a) v (loading a) (activeMistakes a)
        (showAchievements a) (previousLoginTime a) (selectedStudent a).
Definition setLoading (v : bool) (a : App) : App :=
  mkApp (currentUser a) (appState a) (currentProblem a) v (activeMistakes a)
        (showAchievements a) (previousLoginTime a) (selectedStudent a).
Definition setActiveMistakes (v : list Problem.t) (a : App) : App :=
  mkApp (currentUser a) (appState a) (currentProblem a) (loading a) v
        (showAchievements a) (previousLoginTime a) (selectedStudent a).
Definition setShowAchievements (v : bool) (a : App) : App :=
  mkApp (currentUser a) (appState a) (currentProblem a) (loading a)
        (activeMistakes a) v (previousLoginTime a) (selectedStudent a).
Definition setPreviousLoginTime (v : option Z) (a : App) : App :=
  mkApp (currentUser a) (appState a) (currentProblem a) (loading a)
        (activeMistakes a) (showAchievements a) v (selectedStudent a).
Definition setSelectedStudent (v : option User.t) (a : App) : App :=
  mkApp (currentUser a) (appState a) (currentProblem a) (loading a)
        (activeMistakes a) (showAchievements a) (previousLoginTime a) v.

(** [m.id === p.id] somewhere in the list. *)
Definition hasId (id : string) (l : list Problem.t) : Prop :=
  some (λ m, Problem.id m = id) l.

Definition removeId (id : string) (l : list Problem.t) : list Problem.t :=
  filter (λ m, Problem.id m ≠ id) l.

Definition handleLoginSuccess (user : User.t) (prevLoginTime : option Z)
  (a : App) (ls : localStorage) : App :=
  let a := setPreviousLoginTime prevLoginTime (setCurrentUser (Some user) a) in
  if User.isFirstLogin user then setAppState ChangePassword a
  else
    match User.role user with
    | coach => setAppState CoachDashboard a
    | student =>
        let loadedMistakes := getUserMistakes (User.id user) ls in
        let a := setActiveMistakes loadedMistakes a in
        let a := if decide (prevLoginTime ≠ None)
                 then setShowAchievements true a else a in
        match getLastSession (User.id user) ls with
        | Some lastSession =>
            setAppState ProblemActive (setCurrentProblem (Some lastSession) a)
        | None => setAppState TopicSelection a
        end
    end.

(** The mount effect: resume silently when a session identity is stored.
    [initializeAdmin], started first, reads the roster and suspends on its
    first digest; its roster write lands after the resume (see [handle]). *)
Definition mount (a : App) (ls : localStorage) : App :=
  match getCurrentUser ls with
  | Some user => handleLoginSuccess user None a ls
  | None => a
  end.

(** components/Login.tsx, [handleSubmit]: a failed [login] only shows its
    message. *)
Definition loginSubmit (now : Z) (username password : string)
  (a : App) (ls : localStorage) : App * localStorage :=
  match login now username password ls with
  | inr (result, ls') =>
      (handleLoginSuccess (LoginResult.user result)
         (LoginResult.previousLogin result) a ls', ls')
  | inl _ => (a, ls)
  end.

Definition handleLogout (a : App) (ls : localStorage) : App * localStorage :=
  (setShowAchievements false
     (setCurrentProblem None
        (setSelectedStudent None
           (setActiveMistakes []
              (setAppState Login (setCurrentUser None a))))),
   logout ls).

Definition handlePasswordChangeSuccess (a : App) (ls : localStorage) : App :=
  match getCurrentUser ls with
  | Some updated => handleLoginSuccess updated None a ls
  | None => a
  end.

(** [Math.floor(Math.random() * (TOPICS.length - 1))] for the draw [rnd]:
    the product is rounded to a double, then cut to its integer part. *)
Definition randomIndex (rnd : UnitDouble.t) : N :=
  (round53 (UnitDouble.scaled rnd * N.of_nat (length TOPICS - 1)) / 2 ^ 1074)%N.

(** [TOPICS[...]]; an index outside the table reads [undefined], here
    [None]. *)
Definition randomTopic (rnd : UnitDouble.t) : option string :=
  TOPICS !! N.to_nat (randomIndex rnd).

Definition selectedTopic (rnd : UnitDouble.t) (topic : string) : option string :=
  if decide (topic = RANDOM_TOPIC) then randomTopic rnd else Some topic.

(** [handleTopicSelect]; [generateMathProblem] catches its own failures, so
    the alert branch is never taken.  [None] stands for a topic read outside
    the table, which [selectedTopic_total] rules out. *)
Definition handleTopicSelect (rnd : UnitDouble.t) (response : option GenResponse.t)
  (now : Z) (topic : string) (a : App) : option App :=
  match selectedTopic rnd topic with
  | Some selected =>
      let problem := generateMathProblem response now selected in
      Some (setLoading false
              (setAppState ProblemActive (setCurrentProblem (Some problem) a)))
  | None => None
  end.

Definition toggleMistake (now : Z) (a : App) : App :=
  match currentProblem a with
  | None => a
  | Some p =>
      match currentUser a with
      | Some u =>
          if decide (User.role u ≠ student) then a
          else if decide (hasId (Problem.id p) (activeMistakes a))
          then setActiveMistakes (removeId (Problem.id p) (activeMistakes a)) a
          else setActiveMistakes (Problem.with_timestamp p now :: activeMistakes a) a
      | None => a
      end
  end.

Definition saveCurrentProblem (now : Z) (a : App) : App :=
  match currentProblem a, currentUser a with
  | Some p, Some u =>
      if decide (User.role u ≠ student) then a
      else if decide (¬ hasId (Problem.id p) (activeMistakes a))
      then setActiveMistakes (Problem.with_timestamp p now :: activeMistakes a) a
      else a
  | _, _ => a
  end.

Definition handleChatUpdate (messages : list Message.t) (a : App) : App :=
  match currentProblem a with
  | None => a
  | Some p =>
      let updatedProblem := Problem.with_chatHistory p messages in
      let a := setCurrentProblem (Some updatedProblem) a in
      if decide (hasId (Problem.id updatedProblem) (activeMistakes a))
      then
        setActiveMistakes
          ((λ m, if decide (Problem.id m = Problem.id updatedProblem)
                 then updatedProblem else m) <$> activeMistakes a) a
      else a
  end.

Definition handleCoachSelectStudent (student : User.t)
  (mistakes : list Problem.t) (a : App) : App :=
  setAppState CoachAnalytics
    (setActiveMistakes mistakes (setSelectedStudent (Some student) a)).

(** The notebook's [onSelect] and [onDelete]. *)
Definition notebookSelect (problem : Problem.t) (a : App) : App :=
  setAppState ProblemActive (setCurrentProblem (Some problem) a).

Definition notebookDelete (id : string) (a : App) : App :=
  setActiveMistakes (removeId id (activeMistakes a)) a.

(** The problem pane's [onBack]; [currentUser!.id] throws before any state
    is set when nobody is logged in. *)
Definition problemBack (a : App) (ls : localStorage) : App * localStorage :=
  match currentUser a with
  | Some u =>
      (setCurrentProblem None (setAppState TopicSelection a),
       saveLastSession (User.id u) None ls)
  | None => (a, ls)
  end.

(** The chat pane's submit as App sees it: [onAutoSave] is
    [saveCurrentProblem]. *)
Definition chatSubmit (now : Z) (c : Chat.t) (a : App) : App :=
  if callsAutoSave c then saveCurrentProblem now a else a.

(** The two persistence effects of a render with state [a]. *)
Definition persistMistakes (a : App) (ls : localStorage) : localStorage :=
  match currentUser a with
  | Some u =>
      if decide (User.role u = student ∧ appState a ≠ Login)
      then saveUserMistakes (User.id u) (activeMistakes a) ls else ls
  | None => ls
  end.

Definition persistSession (a : App) (ls : localStorage) : localStorage :=
  match currentUser a with
  | Some u =>
      if decide (User.role u = student ∧ appState a = ProblemActive)
      then saveLastSession (User.id u) (currentProblem a) ls else ls
  | None => ls
  end.

Definition runEffects (a : App) (ls : localStorage) : localStorage :=
  persistSession a (persistMistakes a ls).

(** What the render of [App] shows of the achievement overlay. *)
Definition overlayShown (a : App) : bool :=
  match appState a with
  | Login | CoachDashboard | CoachAnalytics => false
  | ChangePassword =>
      (* with a user the password form is rendered; without one the
         student view is, whose overlay needs a user *)
      false
  | TopicSelection | ProblemActive | MistakeNotebook =>
      showAchievements a && bool_decide (is_Some (currentUser a))
  end.

(** The user actions, each with the inputs the environment supplies. *)
Inductive Event :=
  | EMount
  | ELoginSubmit (now : Z) (username password : string)
  | ELogout
  | EPasswordChanged
  | ETopicSelect (rnd : UnitDouble.t) (response : option GenResponse.t) (now : Z)
      (topic : string)
  | EToggleMistake (now : Z)
  | EChatSubmit (now : Z) (c : Chat.t)
  | EChatUpdate (messages : list Message.t)
  | ECoachSelectStudent (student : User.t)
  | ENotebookSelect (problem : Problem.t)
  | ENotebookDelete (id : string)
  | EProblemBack
  | EHeaderHome
  | EOpenNotebook
  | ENotebookBack
  | ECoachBack
  | ECloseAchievements.

Definition handle (e : Event) (a : App) (ls : localStorage) : App * localStorage :=
  match e with
  | EMount => (mount a ls, initializeAdmin ls)
  | ELoginSubmit now username password => loginSubmit now username password a ls
  | ELogout => handleLogout a ls
  | EPasswordChanged => (handlePasswordChangeSuccess a ls, ls)
  | ETopicSelect rnd response now topic =>
      (default a (handleTopicSelect rnd response now topic a), ls)
  | EToggleMistake now => (toggleMistake now a, ls)
  | EChatSubmit now c => (chatSubmit now c a, ls)
  | EChatUpdate messages => (handleChatUpdate messages a, ls)
  | ECoachSelectStudent stu =>
      (handleCoachSelectStudent stu (getUserMistakes (User.id stu) ls) a, ls)
  | ENotebookSelect problem => (notebookSelect problem a, ls)
  | ENotebookDelete id => (notebookDelete id a, ls)
  | EProblemBack => problemBack a ls
  | EHeaderHome | ENotebookBack => (setAppState TopicSelection a, ls)
  | EOpenNotebook => (setAppState MistakeNotebook a, ls)
  | ECoachBack => (setAppState CoachDashboard a, ls)
  | ECloseAchievements => (setShowAchievements false a, ls)
  end.

(** The problem pane is on screen. *)
Definition chatMounted (a : App) : Prop :=
  appState a = ProblemActive ∧ is_Some (currentProblem a).

(** While the problem pane is on screen, [App] renders without end: the
    effect of ChatInterface that propagates the messages depends on
    [onMessagesUpdate], which is a new [handleChatUpdate] closure at every
    render of [App], and [handleChatUpdate] sets [currentProblem] to a new
    object each time it runs.  An action of the user on that view therefore
    may find effects of the render that created its handler still pending.
    They run after the handler and before the next render, with the values
    of that earlier render. *)
Record Pending := mkPending {
  pendingMistakes : bool;                  (* the save-mistakes effect *)
  pendingSession : bool;                   (* the persist-session effect *)
  pendingChat : option (list Message.t)    (* the propagation effect, with
                                              the messages of the pane *)
}.

Definition noPending : Pending := mkPending false false None.

(** The actions the view of an active problem offers: the overlay, the
    header, the problem pane and the chat pane. *)
Definition offeredByProblemView (e : Event) : bool :=
  match e with
  | ELogout | EToggleMistake _ | EChatSubmit _ _ | EChatUpdate _
  | EProblemBack | EHeaderHome | ECloseAchievements => true
  | _ => false
  end.

(** [handleChatUpdate] of the render with state [old], run when the state
    is [a]: what it reads ([currentProblem], [activeMistakes.some]) is
    [old]'s, its updates are queued behind those that led to [a]. *)
Definition staleChatUpdate (messages : list Message.t) (old a : App) : App :=
  match currentProblem old with
  | None => a
  | Some p =>
      let updatedProblem := Problem.with_chatHistory p messages in
      let a := setCurrentProblem (Some updatedProblem) a in
      if decide (hasId (Problem.id updatedProblem) (activeMistakes old))
      then
        setActiveMistakes
          ((λ m, if decide (Problem.id m = Problem.id updatedProblem)
                 then updatedProblem else m) <$> activeMistakes a) a
      else a
  end.

Definition flushPending (e : Event) (pend : Pending) (old : App)
  (s : App * localStorage) : App * localStorage :=
  if offeredByProblemView e && bool_decide (chatMounted old)
  then
    let a := match pendingChat pend with
             | Some messages => staleChatUpdate messages old s.1
             | None => s.1
             end in
    let ls := if pendingMistakes pend then persistMistakes old s.2 else s.2 in
    let ls := if pendingSession pend then persistSession old ls else ls in
    (a, ls)
  else s.

(** One transition: the handler, the pending effects of the render that
    created it, then the two persistence effects of the render that
    follows.  React runs an effect of the new render only when one of its
    dependencies changed; when none did, the effect that last wrote the
    cell, pending or not, wrote the value this one would write, so running
    it changes nothing. *)
Definition step (e : Event) (pend : Pending) (s : App * localStorage)
  : App * localStorage :=
  let s1 := handle e s.1 s.2 in
  let s2 := flushPending e pend s.1 s1 in
  (s2.1, runEffects s2.1 s2.2).

(** ** components/ChangePassword.tsx: the password form *)

(** [s.length]: the number of UTF-16 code units of the text whose UTF-8
    bytes are [s].  A character of one to three bytes is one unit, one of
    four bytes is two; continuation bytes count with their lead byte. *)
Definition utf16_units (b : N) : nat :=
  if (b <? 0x80)%N then 1
  else if (b <? 0xC0)%N then 0
  else if (b <? 0xF0)%N then 1
  else 2.

Fixpoint utf16_length (s : string) : nat :=
  match s with
  | EmptyString => 0
  | String c r => utf16_units (Ascii.N_of_ascii c) + utf16_length r
  end.

(** components/ChangePassword.tsx, [handleSubmit], for the user App passes
    in ([currentUser]); the two validation failures and a failed update
    only show a message. *)
Definition changePasswordSubmit (newPass confirmPass : string)
  (a : App) (ls : localStorage) : App * localStorage :=
  match currentUser a with
  | Some user =>
      if (utf16_length newPass <? 6)%nat then (a, ls)
      else if decide (newPass ≠ confirmPass) then (a, ls)
      else
        match updatePassword (User.id user) newPass ls with
        | inr (_, ls') => (handlePasswordChangeSuccess a ls', ls')
        | inl _ => (a, ls)
        end
  | None => (a, ls)
  end.

(** ** Vocabulary of the properties *)

Definition usernames (users : list User.t) : list string := User.username <$> users.

(** [u] sits at index [i] and no earlier record carries its username: the
    record [login] works on. *)
Definition firstWithUsername (users : list User.t) (i : nat) (u : User.t) : Prop :=
  users !! i = Some u
  ∧ ∀ j v, users !! j = Some v → j < i → User.username v ≠ User.username u.

(** [u] sits at index [i] and no earlier record carries its id: the record
    the operations keyed by [userId] work on. *)
Definition firstWithId (users : list User.t) (i : nat) (u : User.t) : Prop :=
  users !! i = Some u
  ∧ ∀ j v, users !! j = Some v → j < i → User.id v ≠ User.id u.

Definition batchRecord (mkId : nat → string) (k : nat) (r : RawUser.t) : User.t :=
  User.mk (mkId k) (RawUser.username r) (hashPassword (RawUser.username r))
          (RawUser.name r) student true None None.

Definition passesFilter (currentUsers : list User.t) (nu : User.t) : Prop :=
  ¬ some (λ cu, User.username cu = User.username nu) currentUsers.

Definition loggedIn (now : Z) (user : User.t) : User.t :=
  User.mk (User.id user) (User.username user) (User.passwordHash user)
          (User.name user) (User.role user) (User.isFirstLogin user)
          (Some now) (Some (default 0 (User.loginCount user) + 1)).

Definition rotated (pHash : string) (u : User.t) : User.t :=
  User.mk (User.id u) (User.username u) pHash (User.name u) (User.role u)
          false (User.lastLogin u) (User.loginCount u).

Definition resetRecord (user : User.t) : User.t :=
  User.mk (User.id user) (User.username user) (hashPassword (User.username user))
          (User.name user) (User.role user) true (User.lastLogin user)
          (User.loginCount user).

(** The bytes that occur in the encodings of the white-space characters. *)
Definition ws_byte (b : N) : bool :=
  (ws1 b
   || (b =? 0xC2) || (b =? 0xA0) || (b =? 0xE1) || (b =? 0x9A)
   || ((0x80 <=? b) && (b <=? 0x8A)) || (b =? 0xE2) || (b =? 0xA8)
   || (b =? 0xA9) || (b =? 0xAF) || (b =? 0x81) || (b =? 0x9F)
   || (b =? 0xE3) || (b =? 0xEF) || (b =? 0xBB) || (b =? 0xBF))%N.

Definition uniqueIds (l : list Problem.t) : Prop := NoDup (Problem.id <$> l).

Definition archivesUnique (ls : localStorage) : Prop :=
  ∀ userId, uniqueIds (getUserMistakes userId ls).

Definition hasUsername (name : string) (users : list User.t) : Prop :=
  some (λ u, User.username u = name) users.

Definition adminRecord : User.t :=
  User.mk "admin_default" "Coach" (hashPassword "admin123") "竞赛主教练"
          coach false None None.

Definition testRecord : User.t :=
  User.mk "student_test_default" "test" (hashPassword "test") "测试学生"
          student false None None.

(** The records the bootstrap appends to a roster. *)
Definition bootstrapAdded (users : list User.t) : list User.t :=
  (if decide (hasUsername "Coach" users) then [] else [adminRecord])
  ++ (if decide (hasUsername "test" users) then [] else [testRecord]).

(** * Properties *)

(** ** The digest on the FIPS 180-4 test messages *)

Example hashPassword_abc :
  hashPassword "abc"
  = "ba7816bf8f01cfea414140de5dae2223b00361a396177a9cb410ff61f20015ad".
Proof. vm_compute. reflexivity. Qed.

Example hashPassword_empty :
  hashPassword ""
  = "e3b0c44298fc1c149afbf4c8996fb92427ae41e4649b934ca495991b7852b855".
Proof. vm_compute. reflexivity. Qed.

Example hashPassword_two_blocks :
  hashPassword "abcdbcdecdefdefgefghfghighijhijkijkljklmklmnlmnomnopnopq"
  = "248d6a61d20638b8e5c026930c3e6039a33ce45964ff2167f6ecedd419db06c1".
Proof. vm_compute. reflexivity. Qed.


(** ** The storage keys *)

Lemma fixed_keys_distinct :
  USERS_KEY ≠ DATA_KEY ∧ USERS_KEY ≠ CURRENT_USER_KEY ∧ DATA_KEY ≠ CURRENT_USER_KEY.
Proof. repeat split; discriminate. Qed.

Lemma session_key_not_fixed (userId : string) :
  LAST_SESSION_PREFIX +:+ userId ≠ USERS_KEY
  ∧ LAST_SESSION_PREFIX +:+ userId ≠ DATA_KEY
  ∧ LAST_SESSION_PREFIX +:+ userId ≠ CURRENT_USER_KEY.
Proof. repeat split; discriminate. Qed.

Lemma session_key_inj (u1 u2 : string) :
  LAST_SESSION_PREFIX +:+ u1 = LAST_SESSION_PREFIX +:+ u2 → u1 = u2.
Proof. unfold LAST_SESSION_PREFIX. simpl. intros H. by simplify_eq. Qed.

(** ** Rosters *)

Lemma fmap_filter_sublist {A B} (f : A → B) (P : A → Prop)
  `{∀ x, Decision (P x)} (l : list A) :
  f <$> filter P l `sublist_of` f <$> l.
Proof.
  induction l as [| x l IH]; [done |].
  rewrite filter_cons. simpl. case_decide; simpl.
  - by apply sublist_skip.
  - by apply sublist_cons.
Qed.

Lemma findIndex_username users i u :
  firstWithUsername users i u →
  findIndex (λ x, User.username x = User.username u) users = Some (i, u).
Proof.
  intros [Hi Hlt]. unfold findIndex. apply list_find_Some.
  split_and!; [done | done | intros j v Hj Hlt'; by eapply Hlt].
Qed.

Lemma findIndex_id users i u :
  firstWithId users i u →
  findIndex (λ x, User.id x = User.id u) users = Some (i, u).
Proof.
  intros [Hi Hlt]. unfold findIndex. apply list_find_Some.
  split_and!; [done | done | intros j v Hj Hlt'; by eapply Hlt].
Qed.

(** In a roster with pairwise distinct usernames every record is the first
    with its username. *)
Lemma firstWithUsername_NoDup users i u :
  NoDup (usernames users) → users !! i = Some u → firstWithUsername users i u.
Proof.
  intros Hnd Hi. split; [done |]. intros j v Hj Hlt Heq.
  assert (j = i); [| lia].
  apply (NoDup_lookup (usernames users) j i (User.username u) Hnd);
    unfold usernames; rewrite list_lookup_fmap;
    [rewrite Hj | rewrite Hi]; simpl; congruence.
Qed.

Lemma firstWithId_NoDup users i u :
  NoDup (User.id <$> users) → users !! i = Some u → firstWithId users i u.
Proof.
  intros Hnd Hi. split; [done |]. intros j v Hj Hlt Heq.
  assert (j = i); [| lia].
  apply (NoDup_lookup (User.id <$> users) j i (User.id u) Hnd);
    rewrite list_lookup_fmap; [rewrite Hj | rewrite Hi]; simpl; congruence.
Qed.

Lemma getDBUsers_saveDBUsers users ls :
  getDBUsers (saveDBUsers users ls) = users.
Proof. reflexivity. Qed.

(** ** registerBatchUsers *)

(** The call never throws; it appends the records of the batch that pass
    the filter and returns how many they are. *)
Lemma registerBatchUsers_result mkId raw ls :
  let inserted :=
    filter (passesFilter (getDBUsers ls)) (imap (batchRecord mkId) raw) in
  registerBatchUsers mkId raw ls
  = inr (length inserted, saveDBUsers (getDBUsers ls ++ inserted) ls).
Proof. reflexivity. Qed.

Lemma registerBatchUsers_count mkId raw ls n ls' :
  registerBatchUsers mkId raw ls = inr (n, ls') →
  length (getDBUsers ls') = length (getDBUsers ls) + n.
Proof.
  rewrite registerBatchUsers_result. intros [= <- <-].
  by rewrite getDBUsers_saveDBUsers, length_app.
Qed.

(** An entry whose username an existing user carries is dropped: every
    inserted record has a username that is new to the roster. *)
Lemma registerBatchUsers_drops_collisions mkId raw ls n ls' :
  registerBatchUsers mkId raw ls = inr (n, ls') →
  ∃ inserted,
    getDBUsers ls' = getDBUsers ls ++ inserted
    ∧ length inserted = n
    ∧ ∀ nu, nu ∈ inserted → User.username nu ∉ usernames (getDBUsers ls).
Proof.
  rewrite registerBatchUsers_result. intros [= <- <-].
  eexists; split_and!; [reflexivity | reflexivity |].
  intros nu [Hadm _]%list_elem_of_filter Hin.
  apply Hadm. unfold some. apply Exists_exists.
  unfold usernames in Hin. apply list_elem_of_fmap in Hin as (cu & Heq & Hcu).
  exists cu. split; [done | congruence].
Qed.

Lemma usernames_imap_batch mkId raw :
  usernames (imap (batchRecord mkId) raw) = RawUser.username <$> raw.
Proof.
  unfold usernames. revert mkId. induction raw as [| r raw IH]; intros mkId; [done |].
  simpl. f_equal. apply (IH (mkId ∘ S)).
Qed.

(** When the batch itself has pairwise distinct usernames, a roster with
    distinct usernames keeps them distinct. *)
Lemma registerBatchUsers_NoDup mkId raw ls n ls' :
  NoDup (usernames (getDBUsers ls)) →
  NoDup (RawUser.username <$> raw) →
  registerBatchUsers mkId raw ls = inr (n, ls') →
  NoDup (usernames (getDBUsers ls')).
Proof.
  intros Hcur Hraw. rewrite registerBatchUsers_result. intros [= _ <-].
  rewrite getDBUsers_saveDBUsers. unfold usernames at 1.
  rewrite fmap_app. apply NoDup_app. split_and!.
  - exact Hcur.
  - intros x Hx Hx'. apply list_elem_of_fmap in Hx' as (nu & -> & Hnu).
    apply list_elem_of_filter in Hnu as [Hadm _]. apply Hadm.
    unfold some. apply Exists_exists.
    apply list_elem_of_fmap in Hx as (cu & Heq & Hcu). by exists cu.
  - apply (sublist_NoDup _ (RawUser.username <$> raw)); [exact Hraw |].
    rewrite <- (usernames_imap_batch mkId).
    apply (fmap_filter_sublist User.username (passesFilter (getDBUsers ls))).
Qed.

(** C1 (code defect).  The filter of [registerBatchUsers] compares each new
    record with the roster read at call start only, so two entries of one
    batch that share a username are both inserted: on the empty roster the
    batch [A/a, B/a] returns 2 and leaves a roster with the username [a]
    twice. *)
Theorem registerBatchUsers_keeps_batch_duplicates :
  ∃ ls',
    registerBatchUsers (λ k, "u_" +:+ pretty k)
      [RawUser.mk "A" "a"; RawUser.mk "B" "a"] emptyStorage = inr (2, ls')
    ∧ usernames (getDBUsers ls') = ["a"; "a"]
    ∧ ¬ NoDup (usernames (getDBUsers ls')).
Proof.
  eexists. split; [apply registerBatchUsers_result |].
  assert (usernames (getDBUsers (saveDBUsers (getDBUsers emptyStorage ++
            filter (passesFilter (getDBUsers emptyStorage))
              (imap (batchRecord (λ k, "u_" +:+ pretty k))
                 [RawUser.mk "A" "a"; RawUser.mk "B" "a"])) emptyStorage))
          = ["a"; "a"]) as Heq by (vm_compute; reflexivity).
  split; [exact Heq |]. rewrite Heq.
  intros [Hnin _]%NoDup_cons. apply Hnin. apply list_elem_of_here.
Qed.

(** ** login *)

Lemma login_found now username password ls i user :
  findIndex (λ u, User.username u = username) (getDBUsers ls) = Some (i, user) →
  User.passwordHash user = hashPassword password →
  login now username password ls
  = inr (LoginResult.mk (loggedIn now user) (User.lastLogin user),
         set_current_user_cell (Some (loggedIn now user))
           (saveDBUsers (<[i := loggedIn now user]> (getDBUsers ls)) ls)).
Proof.
  intros Hfind Hhash. unfold login, svc_bind, svc_get, svc_modify, svc_ret.
  rewrite Hfind. destruct (decide _) as [Hne | _]; [done | reflexivity].
Qed.

Lemma login_no_such_user now username password ls :
  findIndex (λ u, User.username u = username) (getDBUsers ls) = None →
  login now username password ls = inl ErrNoSuchUser.
Proof.
  intros Hfind. unfold login, svc_bind, svc_get. by rewrite Hfind.
Qed.

Lemma login_wrong_password now username password ls i user :
  findIndex (λ u, User.username u = username) (getDBUsers ls) = Some (i, user) →
  User.passwordHash user ≠ hashPassword password →
  login now username password ls = inl ErrWrongPassword.
Proof.
  intros Hfind Hhash. unfold login, svc_bind, svc_get. rewrite Hfind.
  destruct (decide _) as [_ | Heq]; [reflexivity | done].
Qed.

(** On a roster without repeated usernames the login does what is asked of
    it.  [login] resolves a username to the first record that carries it;
    for a registered user [u] who is that record, a login with a matching
    password succeeds; it returns as [previousLogin] the [lastLogin] stored
    before the call; the record it returns counts one login more
    ([loginCount] absent reads 0) and carries the time of this login as
    [lastLogin]; that record replaces [u] in the stored roster, and
    [getCurrentUser] read next returns it. *)
Theorem login_then_getCurrentUser now password ls i u :
  firstWithUsername (getDBUsers ls) i u →
  hashPassword password = User.passwordHash u →
  ∃ updated ls',
    login now (User.username u) password ls
    = inr (LoginResult.mk updated (User.lastLogin u), ls')
    ∧ User.loginCount updated = Some (default 0 (User.loginCount u) + 1)
    ∧ User.lastLogin updated = Some now
    ∧ User.id updated = User.id u
    ∧ User.username updated = User.username u
    ∧ getDBUsers ls' = <[i := updated]> (getDBUsers ls)
    ∧ getDBUsers ls' !! i = Some updated
    ∧ getCurrentUser ls' = Some updated.
Proof.
  intros Hfirst Hhash.
  exists (loggedIn now u). eexists. split.
  { apply (login_found _ _ _ _ i); [by apply findIndex_username | done]. }
  split_and!; try reflexivity.
  unfold getDBUsers at 1. simpl. apply list_lookup_insert_eq.
  destruct Hfirst as [Hi _]. by eapply lookup_lt_Some.
Qed.

Lemma login_then_getCurrentUser_witness :
  ∃ updated ls',
    login 1700000000000 "test" "test" (initializeAdmin emptyStorage)
    = inr (LoginResult.mk updated None, ls')
    ∧ User.loginCount updated = Some 1
    ∧ getCurrentUser ls' = Some updated.
Proof.
  destruct (login_then_getCurrentUser 1700000000000 "test"
              (initializeAdmin emptyStorage) 1
              (User.mk "student_test_default" "test" (hashPassword "test")
                 "测试学生" student false None None))
    as (updated & ls' & Hlogin & Hcount & _ & _ & _ & _ & _ & Hcur).
  - split; [reflexivity |].
    intros j v Hj Hlt. assert (j = 0) as -> by lia.
    vm_compute in Hj. injection Hj as <-. discriminate.
  - reflexivity.
  - exists updated, ls'. split_and!; [exact Hlogin | exact Hcount | exact Hcur].
Defined.

(** With pairwise distinct usernames this is every registered user. *)
Corollary login_on_unique_roster now password ls u :
  NoDup (usernames (getDBUsers ls)) →
  u ∈ getDBUsers ls →
  hashPassword password = User.passwordHash u →
  ∃ updated ls',
    login now (User.username u) password ls
    = inr (LoginResult.mk updated (User.lastLogin u), ls')
    ∧ User.loginCount updated = Some (default 0 (User.loginCount u) + 1)
    ∧ User.lastLogin updated = Some now
    ∧ User.id updated = User.id u
    ∧ updated ∈ getDBUsers ls'
    ∧ getCurrentUser ls' = Some updated.
Proof.
  intros Hnd [i Hi]%list_elem_of_lookup_1 Hhash.
  destruct (login_then_getCurrentUser now password ls i u)
    as (updated & ls' & Hlogin & Hc & Hl & Hid & _ & _ & Hin & Hcur);
    [by apply firstWithUsername_NoDup | done |].
  exists updated, ls'. split_and!; try done.
  by eapply list_elem_of_lookup_2.
Qed.

(** C2 (code defect, the one of C1).  A registered user behind another
    record with the same username cannot log in as itself.  The batch
    [A/a, B/a] on the empty roster registers two users named [a]; the first
    logs in at time 5 and out again.  The second, [u_1], has never logged
    in and its stored digest is that of the password [a]; its login at time
    9 succeeds, but [previousLogin] is 5, the record counted up, stored and
    returned by [getCurrentUser] is the one of [u_0], and the record of
    [u_1] is as it was. *)
Theorem login_reaches_first_record_only :
  ∃ ls0 r1 ls1 second r2 ls2,
    registerBatchUsers (λ k, "u_" +:+ pretty k)
      [RawUser.mk "A" "a"; RawUser.mk "B" "a"] emptyStorage = inr (2, ls0)
    ∧ login 5 "a" "a" ls0 = inr (r1, ls1)
    ∧ getDBUsers (logout ls1) !! 1 = Some second
    ∧ User.id second = "u_1"
    ∧ User.username second = "a"
    ∧ hashPassword "a" = User.passwordHash second
    ∧ User.lastLogin second = None
    ∧ User.loginCount second = None
    ∧ login 9 (User.username second) "a" (logout ls1) = inr (r2, ls2)
    ∧ LoginResult.previousLogin r2 = Some 5%Z
    ∧ LoginResult.previousLogin r2 ≠ User.lastLogin second
    ∧ User.id (LoginResult.user r2) = "u_0"
    ∧ User.loginCount (LoginResult.user r2) = Some 2
    ∧ getDBUsers ls2 !! 1 = Some second
    ∧ (User.id <$> getCurrentUser ls2) = Some "u_0".
Proof.
  do 6 eexists.
  split; [vm_compute; reflexivity |].
  split; [vm_compute; reflexivity |].
  split; [vm_compute; reflexivity |].
  split_and!; try (vm_compute; reflexivity).
  vm_compute. discriminate.
Qed.

(** ** updatePassword *)

Lemma updatePassword_found userId newPassword ls i u :
  findIndex (λ x, User.id x = userId) (getDBUsers ls) = Some (i, u) →
  updatePassword userId newPassword ls
  = inr (rotated (hashPassword newPassword) u,
         set_current_user_cell (Some (rotated (hashPassword newPassword) u))
           (saveDBUsers (<[i := rotated (hashPassword newPassword) u]> (getDBUsers ls)) ls)).
Proof.
  intros Hfind. unfold updatePassword, svc_bind, svc_get, svc_modify, svc_ret.
  by rewrite Hfind.
Qed.

Lemma updatePassword_not_found userId newPassword ls :
  findIndex (λ x, User.id x = userId) (getDBUsers ls) = None →
  updatePassword userId newPassword ls = inl ErrUserNotFound.
Proof.
  intros Hfind. unfold updatePassword, svc_bind, svc_get. by rewrite Hfind.
Qed.

(** C3, as the code has it.  For an existing user id, [updatePassword]
    stores the digest of the new password, clears [isFirstLogin], writes the
    roster with that record in place, and sets the session identity to the
    updated record whatever the session cell held before (the same user,
    another user, or nothing); the archive and last-session cells are not
    written. *)
Theorem updatePassword_sets_session newPassword ls i u :
  firstWithId (getDBUsers ls) i u →
  ∃ updated ls',
    updatePassword (User.id u) newPassword ls = inr (updated, ls')
    ∧ User.passwordHash updated = hashPassword newPassword
    ∧ User.isFirstLogin updated = false
    ∧ User.id updated = User.id u
    ∧ User.username updated = User.username u
    ∧ getDBUsers ls' = <[i := updated]> (getDBUsers ls)
    ∧ getCurrentUser ls' = Some updated
    ∧ data_cell ls' = data_cell ls
    ∧ last_session_cells ls' = last_session_cells ls.
Proof.
  intros Hfirst. exists (rotated (hashPassword newPassword) u). eexists. split.
  { apply (updatePassword_found _ _ _ i). by apply findIndex_id. }
  split_and!; reflexivity.
Qed.

Lemma updatePassword_sets_session_witness :
  ∃ updated ls',
    updatePassword "student_test_default" "feynman" (initializeAdmin emptyStorage)
    = inr (updated, ls')
    ∧ User.isFirstLogin updated = false
    ∧ getCurrentUser ls' = Some updated.
Proof.
  destruct (updatePassword_sets_session "feynman" (initializeAdmin emptyStorage) 1
              (User.mk "student_test_default" "test" (hashPassword "test")
                 "测试学生" student false None None))
    as (updated & ls' & Hcall & _ & Hfirst & _ & _ & _ & Hcur & _).
  - split; [reflexivity |].
    intros j v Hj Hlt. assert (j = 0) as -> by lia.
    vm_compute in Hj. injection Hj as <-. discriminate.
  - exists updated, ls'. split_and!; [exact Hcall | exact Hfirst | exact Hcur].
Defined.

(** C3, as stated, fails: with the coach logged in, a password update for
    the test student replaces the coach's session identity by the
    student's record; and with nobody logged in the update creates a
    session identity. *)
Lemma updatePassword_overwrites_other_session :
  ∃ r ls1 updated ls2,
    login 1 "Coach" "admin123" (initializeAdmin emptyStorage) = inr (r, ls1)
    ∧ (User.id <$> getCurrentUser ls1) = Some "admin_default"
    ∧ updatePassword "student_test_default" "feynman" ls1 = inr (updated, ls2)
    ∧ getCurrentUser ls2 ≠ getCurrentUser ls1
    ∧ (User.id <$> getCurrentUser ls2) = Some "student_test_default"
    ∧ getCurrentUser (initializeAdmin emptyStorage) = None
    ∧ ∃ updated' ls3,
        updatePassword "student_test_default" "feynman" (initializeAdmin emptyStorage)
        = inr (updated', ls3)
        ∧ getCurrentUser ls3 ≠ None.
Proof.
  do 4 eexists. split; [vm_compute; reflexivity |].
  split; [reflexivity |].
  split; [vm_compute; reflexivity |].
  split; [discriminate |].
  split; [reflexivity |].
  split; [reflexivity |].
  do 2 eexists. split; [vm_compute; reflexivity | discriminate].
Qed.

(** ** resetUserPasswordToUsername *)

Lemma reset_found userId ls i user :
  findIndex (λ x, User.id x = userId) (getDBUsers ls) = Some (i, user) →
  resetUserPasswordToUsername userId ls
  = inr (tt, saveDBUsers (<[i := resetRecord user]> (getDBUsers ls)) ls).
Proof.
  intros Hfind. unfold resetUserPasswordToUsername, svc_bind, svc_get, svc_modify.
  by rewrite Hfind.
Qed.

Lemma reset_not_found userId ls :
  findIndex (λ x, User.id x = userId) (getDBUsers ls) = None →
  resetUserPasswordToUsername userId ls = inl ErrUserNotFound.
Proof.
  intros Hfind. unfold resetUserPasswordToUsername, svc_bind, svc_get.
  by rewrite Hfind.
Qed.

(** A record replaced in place by one with the same username is still the
    first with that username. *)
Lemma firstWithUsername_insert users i u u' :
  firstWithUsername users i u →
  User.username u' = User.username u →
  firstWithUsername (<[i := u']> users) i u'.
Proof.
  intros [Hi Hlt] Hname. split.
  - apply list_lookup_insert_eq. by eapply lookup_lt_Some.
  - intros j v Hj Hji. rewrite list_lookup_insert_ne in Hj by lia.
    rewrite Hname. by eapply Hlt.
Qed.

(** On a roster that repeats neither ids nor usernames the reset does what
    is asked of it: for a registered user [u] who is the first record with
    its id and the first with its username, a reset followed by a login
    with the username as password succeeds, and the record the login yields
    is the one of [u] with [isFirstLogin = true]. *)
Theorem reset_then_login now ls i u :
  firstWithId (getDBUsers ls) i u →
  firstWithUsername (getDBUsers ls) i u →
  ∃ ls1 result ls2,
    resetUserPasswordToUsername (User.id u) ls = inr (tt, ls1)
    ∧ login now (User.username u) (User.username u) ls1 = inr (result, ls2)
    ∧ User.isFirstLogin (LoginResult.user result) = true
    ∧ User.id (LoginResult.user result) = User.id u
    ∧ User.username (LoginResult.user result) = User.username u
    ∧ getCurrentUser ls2 = Some (LoginResult.user result).
Proof.
  intros Hid Hname.
  eexists. eexists. eexists. split.
  { apply (reset_found _ _ i). by apply findIndex_id. }
  split.
  { apply (login_found _ _ _ _ i (resetRecord u)); [| reflexivity].
    rewrite getDBUsers_saveDBUsers.
    apply (findIndex_username _ i (resetRecord u)).
    apply (firstWithUsername_insert _ _ u); [exact Hname | reflexivity]. }
  split_and!; reflexivity.
Qed.

Lemma reset_then_login_witness :
  ∃ ls1 result ls2,
    resetUserPasswordToUsername "student_test_default"
      (initializeAdmin emptyStorage) = inr (tt, ls1)
    ∧ login 7 "test" "test" ls1 = inr (result, ls2)
    ∧ User.isFirstLogin (LoginResult.user result) = true.
Proof.
  destruct (reset_then_login 7 (initializeAdmin emptyStorage) 1
              (User.mk "student_test_default" "test" (hashPassword "test")
                 "测试学生" student false None None))
    as (ls1 & result & ls2 & Hreset & Hlogin & Hfirst & _).
  - split; [reflexivity |].
    intros j v Hj Hlt. assert (j = 0) as -> by lia.
    vm_compute in Hj. injection Hj as <-. discriminate.
  - split; [reflexivity |].
    intros j v Hj Hlt. assert (j = 0) as -> by lia.
    vm_compute in Hj. injection Hj as <-. discriminate.
  - exists ls1, result, ls2. split_and!; [exact Hreset | exact Hlogin | exact Hfirst].
Defined.

(** With pairwise distinct ids and usernames this is every registered
    user. *)
Corollary reset_then_login_on_unique_roster now ls u :
  NoDup (User.id <$> getDBUsers ls) →
  NoDup (usernames (getDBUsers ls)) →
  u ∈ getDBUsers ls →
  ∃ ls1 result ls2,
    resetUserPasswordToUsername (User.id u) ls = inr (tt, ls1)
    ∧ login now (User.username u) (User.username u) ls1 = inr (result, ls2)
    ∧ User.isFirstLogin (LoginResult.user result) = true
    ∧ User.id (LoginResult.user result) = User.id u.
Proof.
  intros Hids Hnames [i Hi]%list_elem_of_lookup_1.
  destruct (reset_then_login now ls i u)
    as (ls1 & result & ls2 & Hreset & Hlogin & Hfirst & Hid & _);
    [by apply firstWithId_NoDup | by apply firstWithUsername_NoDup |].
  by exists ls1, result, ls2.
Qed.

(** C9 (code defect, the one of C1).  A reset does not let a registered
    user behind another record with the same username log in.  The batch
    [A/a, B/a] on the empty roster registers two users named [a]; the first
    rotates its password.  The coach resets the second, [u_1]: the reset
    succeeds, but the login with the username as password reaches the
    record of [u_0] and throws the wrong-password error. *)
Theorem reset_then_login_fails_behind_namesake :
  ∃ ls0 r1 ls1 second ls2,
    registerBatchUsers (λ k, "u_" +:+ pretty k)
      [RawUser.mk "A" "a"; RawUser.mk "B" "a"] emptyStorage = inr (2, ls0)
    ∧ updatePassword "u_0" "secret1" ls0 = inr (r1, ls1)
    ∧ getDBUsers ls1 !! 1 = Some second
    ∧ User.id second = "u_1"
    ∧ User.username second = "a"
    ∧ resetUserPasswordToUsername (User.id second) ls1 = inr (tt, ls2)
    ∧ login 9 (User.username second) (User.username second) ls2
      = inl ErrWrongPassword.
Proof.
  do 5 eexists.
  split; [vm_compute; reflexivity |].
  split; [vm_compute; reflexivity |].
  split; [vm_compute; reflexivity |].
  split_and!; vm_compute; reflexivity.
Qed.

(** C10.  For a registered user [u], the reset succeeds and writes the
    roster cell only: the session identity, the archives and the
    last-session cells are what they were, so [getCurrentUser] returns the
    same record as before the call, also when that record is [u] itself
    with its old digest and first-login flag. *)
Theorem reset_leaves_session ls i u :
  firstWithId (getDBUsers ls) i u →
  ∃ ls',
    resetUserPasswordToUsername (User.id u) ls = inr (tt, ls')
    ∧ getDBUsers ls' = <[i := resetRecord u]> (getDBUsers ls)
    ∧ current_user_cell ls' = current_user_cell ls
    ∧ data_cell ls' = data_cell ls
    ∧ last_session_cells ls' = last_session_cells ls
    ∧ getCurrentUser ls' = getCurrentUser ls
    ∧ (getCurrentUser ls = Some u → getCurrentUser ls' = Some u).
Proof.
  intros Hid. eexists. split.
  { apply (reset_found _ _ i). by apply findIndex_id. }
  split_and!; try reflexivity. intros Hcur. exact Hcur.
Qed.

Lemma reset_leaves_session_witness :
  ∃ r ls0 ls',
    login 3 "test" "test" (initializeAdmin emptyStorage) = inr (r, ls0)
    ∧ resetUserPasswordToUsername "student_test_default" ls0 = inr (tt, ls')
    ∧ getCurrentUser ls' = Some (LoginResult.user r)
    ∧ User.isFirstLogin (LoginResult.user r) = false.
Proof.
  set (u := User.mk "student_test_default" "test" (hashPassword "test")
              "测试学生" student false (Some 3%Z) (Some 1)).
  set (ls0 := set_current_user_cell (Some u)
                (saveDBUsers (<[1 := u]> (getDBUsers (initializeAdmin emptyStorage)))
                   (initializeAdmin emptyStorage))).
  destruct (reset_leaves_session ls0 1 u)
    as (ls' & Hreset & _ & _ & _ & _ & _ & Hsame).
  - split; [reflexivity |].
    intros j v Hj Hlt. assert (j = 0) as -> by lia.
    vm_compute in Hj. injection Hj as <-. discriminate.
  - exists (LoginResult.mk u None), ls0, ls'.
    split_and!; [vm_compute; reflexivity | exact Hreset | by apply Hsame | reflexivity].
Defined.

(** ** The progression calculator *)

Lemma condition_monotone b (c1 l1 t1 c2 l2 t2 : nat) :
  b ∈ BADGES →
  (c1 ≤ c2)%nat → (l1 ≤ l2)%nat → (t1 ≤ t2)%nat →
  Badge.condition b c1 l1 t1 = true → Badge.condition b c2 l2 t2 = true.
Proof.
  intros Hin Hc Hl Ht. unfold BADGES in Hin.
  repeat (apply elem_of_cons in Hin as [-> | Hin]); cbn [Badge.condition];
    try (rewrite !Nat.leb_le; lia).
  by apply elem_of_nil in Hin.
Qed.

(** C8.  The badges unlocked at a triple of counts stay unlocked at every
    componentwise larger triple. *)
Theorem unlockedBadges_monotone (c1 l1 t1 c2 l2 t2 : nat) :
  (c1 ≤ c2)%nat → (l1 ≤ l2)%nat → (t1 ≤ t2)%nat →
  unlockedBadgesAt c1 l1 t1 ⊆ unlockedBadgesAt c2 l2 t2.
Proof.
  intros Hc Hl Ht b. unfold unlockedBadgesAt.
  rewrite !list_elem_of_filter. intros [Hcond Hin]. split; [| exact Hin].
  by apply (condition_monotone b c1 l1 t1).
Qed.

Lemma unlockedBadges_monotone_witness :
  unlockedBadgesAt 4 1 2 ⊆ unlockedBadgesAt 5 1 3.
Proof. apply unlockedBadges_monotone; lia. Defined.

(** ** The achievement overlay *)

Lemma handleLoginSuccess_showAchievements user prev a ls :
  showAchievements (handleLoginSuccess user prev a ls)
  = if User.isFirstLogin user then showAchievements a
    else match User.role user with
         | coach => showAchievements a
         | student => if decide (prev ≠ None) then true else showAchievements a
         end.
Proof.
  unfold handleLoginSuccess.
  destruct (User.isFirstLogin user); [reflexivity |].
  destruct (User.role user); [| reflexivity].
  destruct (decide (prev ≠ None)), (getLastSession _ _); reflexivity.
Qed.

Lemma handleLoginSuccess_appState user prev a ls :
  appState (handleLoginSuccess user prev a ls)
  = if User.isFirstLogin user then ChangePassword
    else match User.role user with
         | coach => CoachDashboard
         | student => match getLastSession (User.id user) ls with
                      | Some _ => ProblemActive
                      | None => TopicSelection
                      end
         end.
Proof.
  unfold handleLoginSuccess.
  destruct (User.isFirstLogin user); [reflexivity |].
  destruct (User.role user); [| reflexivity].
  destruct (decide (prev ≠ None)), (getLastSession _ _); reflexivity.
Qed.

Lemma handleLoginSuccess_currentUser user prev a ls :
  currentUser (handleLoginSuccess user prev a ls) = Some user.
Proof.
  unfold handleLoginSuccess.
  destruct (User.isFirstLogin user); [reflexivity |].
  destruct (User.role user); [| reflexivity].
  destruct (decide (prev ≠ None)), (getLastSession _ _); reflexivity.
Qed.

(** C5, as the code has it.  Starting with the overlay flag down (as in the
    Login state), after [handleLoginSuccess] the overlay is shown exactly
    when the login supplied a defined [previousLogin] and the user is a
    student who is not on a first login; the silent resume of the mount
    effect supplies none and shows no overlay. *)
Theorem overlay_after_login user prev a ls :
  showAchievements a = false →
  (overlayShown (handleLoginSuccess user prev a ls) = true
   ↔ is_Some prev ∧ User.role user = student ∧ User.isFirstLogin user = false)
  ∧ overlayShown (mount a ls) = false.
Proof.
  intros Hoff. split.
  - unfold overlayShown.
    rewrite handleLoginSuccess_appState, handleLoginSuccess_showAchievements,
      handleLoginSuccess_currentUser, Hoff.
    destruct (User.isFirstLogin user), (User.role user), prev as [t |];
      simpl; try (split; [discriminate | by intros ([? ?] & ? & ?)]).
    + destruct (getLastSession _ _); simpl; (split; [eauto | done]).
    + destruct (getLastSession _ _); simpl;
        (split; [discriminate | by intros ([? ?] & ? & ?)]).
  - unfold mount, overlayShown. destruct (getCurrentUser ls) as [cur |].
    + rewrite handleLoginSuccess_appState, handleLoginSuccess_showAchievements,
        handleLoginSuccess_currentUser, Hoff.
      destruct (User.isFirstLogin cur), (User.role cur); simpl; try reflexivity.
      destruct (getLastSession _ _); reflexivity.
    + rewrite Hoff. by destruct (appState a).
Qed.

Lemma overlay_after_login_witness :
  overlayShown
    (handleLoginSuccess
       (User.mk "student_test_default" "test" (hashPassword "test")
          "测试学生" student false (Some 9%Z) (Some 2))
       (Some 5%Z) initialApp (initializeAdmin emptyStorage)) = true.
Proof.
  apply (overlay_after_login _ (Some 5%Z) initialApp (initializeAdmin emptyStorage));
    [reflexivity |].
  split_and!; [by eexists | reflexivity | reflexivity].
Defined.

(** C5, as stated, fails: the coach's second login supplies the time of
    the first as [previousLogin], and no overlay is shown. *)
Lemma overlay_not_shown_for_coach :
  ∃ r1 ls1 r2 ls2,
    login 1 "Coach" "admin123" (initializeAdmin emptyStorage) = inr (r1, ls1)
    ∧ login 2 "Coach" "admin123" (logout ls1) = inr (r2, ls2)
    ∧ LoginResult.previousLogin r2 = Some 1%Z
    ∧ loginSubmit 2 "Coach" "admin123" initialApp (logout ls1)
      = (handleLoginSuccess (LoginResult.user r2) (Some 1%Z) initialApp ls2, ls2)
    ∧ overlayShown (loginSubmit 2 "Coach" "admin123" initialApp (logout ls1)).1 = false.
Proof.
  do 4 eexists.
  split; [vm_compute; reflexivity |].
  split; [vm_compute; reflexivity |].
  split; [reflexivity |].
  split; vm_compute; reflexivity.
Qed.

(** ** The give-up trigger *)

Lemma prefix_toLowerCase k s :
  String.prefix k s = true → String.prefix (toLowerCase k) (toLowerCase s) = true.
Proof.
  revert s. induction k as [| a k IH]; intros s; [by destruct s |].
  destruct s as [| b s]; simpl; [done |].
  destruct (Ascii.ascii_dec a b) as [-> | _]; [| done].
  intros Hp. destruct (Ascii.ascii_dec _ _); [by apply IH | done].
Qed.

Lemma includes_toLowerCase s k :
  includes s k = true → includes (toLowerCase s) (toLowerCase k) = true.
Proof.
  induction s as [| b s IH]; simpl; rewrite !orb_true_iff.
  - intros [Hp | ?]; [| done]. left. by apply (prefix_toLowerCase k "").
  - intros [Hp | Hin].
    + left. by apply (prefix_toLowerCase k (String b s)).
    + right. by apply IH.
Qed.

Lemma includes_head s c k :
  includes s (String c k) = true → c ∈ String.list_ascii_of_string s.
Proof.
  induction s as [| b s IH]; simpl; [discriminate |].
  rewrite orb_true_iff. intros [Hp | Hin].
  - destruct (Ascii.ascii_dec c b) as [-> | _]; [apply list_elem_of_here | done].
  - apply list_elem_of_further. by apply IH.
Qed.

Ltac bool_to_prop :=
  repeat first
    [ rewrite orb_true_iff | rewrite andb_true_iff
    | rewrite N.eqb_eq | rewrite N.leb_le ].

Lemma ws1_ws_byte b0 : ws1 b0 = true → ws_byte b0 = true.
Proof. unfold ws_byte. intros ->. reflexivity. Qed.

Lemma ws2_ws_byte b0 b1 :
  ws2 b0 b1 = true → ws_byte b0 = true ∧ ws_byte b1 = true.
Proof.
  unfold ws2. rewrite andb_true_iff, !N.eqb_eq. intros [-> ->]. by split.
Qed.

Lemma ws3_ws_byte b0 b1 b2 :
  ws3 b0 b1 b2 = true →
  ws_byte b0 = true ∧ ws_byte b1 = true ∧ ws_byte b2 = true.
Proof.
  unfold ws3. bool_to_prop.
  intros H.
  assert ((b0 = 0xE1 ∨ b0 = 0xE2 ∨ b0 = 0xE3 ∨ b0 = 0xEF)
          ∧ (b1 = 0x9A ∨ b1 = 0x80 ∨ b1 = 0x81 ∨ b1 = 0xBB)
          ∧ (b2 = 0x80 ∨ (0x80 <= b2 ∧ b2 <= 0x8A) ∨ b2 = 0xA8 ∨ b2 = 0xA9
             ∨ b2 = 0xAF ∨ b2 = 0x9F ∨ b2 = 0xBF))%N as (H0 & H1 & H2) by lia.
  clear H. split_and!; unfold ws_byte, ws1; bool_to_prop; lia.
Qed.

Lemma blank_all_ws_aux n s :
  (String.length s ≤ n)%nat → blank s = true →
  ∀ c, c ∈ String.list_ascii_of_string s → ws_byte (Ascii.N_of_ascii c) = true.
Proof.
  revert s. induction n as [| n IH]; intros s Hlen Hb c Hc.
  { destruct s; [by apply elem_of_nil in Hc | simpl in Hlen; lia]. }
  destruct s as [| c0 s1]; [by apply elem_of_nil in Hc |].
  simpl in Hlen. simpl in Hb, Hc.
  destruct (ws1 (Ascii.N_of_ascii c0)) eqn:E1.
  { apply elem_of_cons in Hc as [-> | Hc]; [by apply ws1_ws_byte |].
    apply (IH s1); [lia | done | done]. }
  destruct s1 as [| c1 s2]; [done |]. simpl in Hlen, Hc.
  destruct (ws2 (Ascii.N_of_ascii c0) (Ascii.N_of_ascii c1)) eqn:E2.
  { apply ws2_ws_byte in E2 as [? ?].
    apply elem_of_cons in Hc as [-> | Hc]; [done |].
    apply elem_of_cons in Hc as [-> | Hc]; [done |].
    apply (IH s2); [lia | done | done]. }
  destruct s2 as [| c2 s3]; [done |]. simpl in Hlen, Hc.
  destruct (ws3 _ _ _) eqn:E3; [| done].
  apply ws3_ws_byte in E3 as (? & ? & ?).
  apply elem_of_cons in Hc as [-> | Hc]; [done |].
  apply elem_of_cons in Hc as [-> | Hc]; [done |].
  apply elem_of_cons in Hc as [-> | Hc]; [done |].
  apply (IH s3); [lia | done | done].
Qed.

Lemma keyword_head k :
  k ∈ keywords →
  ∃ c k', k = String c k' ∧ ws_byte (Ascii.N_of_ascii c) = false.
Proof.
  unfold keywords. intros Hin.
  repeat (apply elem_of_cons in Hin as [-> | Hin]);
    try (eexists _, _; split; [reflexivity | vm_compute; reflexivity]).
  by apply elem_of_nil in Hin.
Qed.

(** A text that contains a keyword is not blank. *)
Lemma includes_keyword_not_blank s k :
  k ∈ keywords → includes s k = true → blank s = false.
Proof.
  intros (c & k' & -> & Hc)%keyword_head Hin%includes_head.
  destruct (blank s) eqn:Hb; [| done].
  rewrite (blank_all_ws_aux (String.length s) s) in Hc; done.
Qed.

Lemma givesUp_of_includes s k :
  k ∈ keywords → includes s k = true → givesUp s = true.
Proof.
  intros Hk Hin. unfold givesUp. apply existsb_exists.
  exists k. split; [by apply list_elem_of_In | by apply includes_toLowerCase].
Qed.

(** ** Archives *)

Lemma hasId_elem id l : hasId id l ↔ id ∈ Problem.id <$> l.
Proof.
  unfold hasId, some. rewrite Exists_exists, list_elem_of_fmap.
  split; intros (m & ? & ?); exists m; done.
Qed.

Lemma getDBData_saveDBData data ls : getDBData (saveDBData data ls) = data.
Proof. reflexivity. Qed.

(** A record replaced in place by one that passes the test exactly when the
    old one does is found at the same index. *)
Lemma list_find_insert_same {A} (P : A → Prop) `{∀ x, Decision (P x)}
  (l : list A) i y :
  (∀ x, l !! i = Some x → (P x ↔ P y)) →
  list_find P (<[i := y]> l)
  = (λ jz, (jz.1, if decide (jz.1 = i) then y else jz.2)) <$> list_find P l.
Proof.
  revert i. induction l as [| x l IH]; intros i Hiff; [done |].
  destruct i as [| i]; simpl.
  - specialize (Hiff x eq_refl).
    destruct (decide (P y)) as [Hy | Hy], (decide (P x)) as [Hx | Hx];
      try tauto; simpl; try done.
    destruct (list_find P l) as [[j z] |]; simpl; [| done].
    destruct (decide (S j = 0)); [lia | done].
  - destruct (decide (P x)); simpl.
    + by destruct (decide (0 = S i)).
    + rewrite IH by done.
      destruct (list_find P l) as [[j z] |]; simpl; [| done].
      do 2 f_equal. destruct (decide (j = i)), (decide (S j = S i)); done || lia.
Qed.

(** Full replace: the archive read back for the user written is the list
    written, and every other user's archive reads as before. *)
Lemma getUserMistakes_saveUserMistakes userId mistakes ls other :
  getUserMistakes other (saveUserMistakes userId mistakes ls)
  = if decide (other = userId) then mistakes else getUserMistakes other ls.
Proof.
  unfold saveUserMistakes, getUserMistakes, findIndex.
  destruct (list_find (λ d, UserData.userId d = userId) (getDBData ls))
    as [[index d] |] eqn:Hfind.
  - rewrite getDBData_saveDBData.
    apply list_find_Some in Hfind as (Hidx & Hd & Hlt).
    rewrite list_find_insert_same.
    2: { intros x Hx. rewrite Hidx in Hx. injection Hx as <-. done. }
    destruct (decide (other = userId)) as [-> | Hne].
    + assert (list_find (λ d0, UserData.userId d0 = userId) (getDBData ls)
              = Some (index, d)) as ->.
      { apply list_find_Some. done. }
      simpl. by rewrite decide_True.
    + destruct (list_find _ (getDBData ls)) as [[j z] |] eqn:Hother; simpl; [| done].
      destruct (decide (j = index)) as [-> | ?]; [| done].
      apply list_find_Some in Hother as (Hj & Hz & _).
      rewrite Hidx in Hj. injection Hj as <-. congruence.
  - rewrite getDBData_saveDBData.
    destruct (decide (other = userId)) as [-> | Hne].
    + rewrite list_find_app_r by done. simpl. by rewrite decide_True.
    + destruct (list_find (λ d, UserData.userId d = other) (getDBData ls))
        as [[j z] |] eqn:Hother.
      * by rewrite (list_find_app_l _ _ _ _ _ Hother).
      * rewrite list_find_app_r by done. simpl. by rewrite decide_False.
Qed.

Lemma saveLastSession_data userId problem ls :
  data_cell (saveLastSession userId problem ls) = data_cell ls.
Proof. by destruct problem. Qed.

Lemma getUserMistakes_saveLastSession userId problem ls other :
  getUserMistakes other (saveLastSession userId problem ls) = getUserMistakes other ls.
Proof. by destruct problem. Qed.

Lemma getLastSession_saveLastSession userId problem ls :
  getLastSession userId (saveLastSession userId problem ls) = problem.
Proof.
  unfold getLastSession. destruct problem; simpl.
  - apply lookup_insert_eq.
  - apply lookup_delete_eq.
Qed.

(** After the effects of a student's view outside Login, the stored
    archive of that student is the list in memory. *)
Lemma runEffects_archive a ls u :
  currentUser a = Some u → User.role u = student → appState a ≠ Login →
  getUserMistakes (User.id u) (runEffects a ls) = activeMistakes a.
Proof.
  intros Hu Hrole Hst. unfold runEffects, persistSession, persistMistakes.
  rewrite Hu. rewrite (decide_True (P := _ ∧ appState a ≠ Login)) by done.
  destruct (decide _); rewrite ?getUserMistakes_saveLastSession;
    rewrite getUserMistakes_saveUserMistakes; by rewrite decide_True.
Qed.


(** ** saveCurrentProblem *)

Lemma saveCurrentProblem_absent now a p u :
  currentProblem a = Some p → currentUser a = Some u → User.role u = student →
  ¬ hasId (Problem.id p) (activeMistakes a) →
  saveCurrentProblem now a
  = setActiveMistakes (Problem.with_timestamp p now :: activeMistakes a) a.
Proof.
  intros Hp Hu Hrole Hno. unfold saveCurrentProblem. rewrite Hp, Hu.
  rewrite decide_False by (intros ?; done). by rewrite decide_True.
Qed.

Lemma saveCurrentProblem_present now a p :
  currentProblem a = Some p →
  hasId (Problem.id p) (activeMistakes a) →
  saveCurrentProblem now a = a.
Proof.
  intros Hp Hhas. unfold saveCurrentProblem. rewrite Hp.
  destruct (currentUser a); [| done].
  destruct (decide (User.role _ ≠ student)); [done |].
  rewrite decide_False; [done | by intros ?].
Qed.

Lemma chatSubmit_calls now c a :
  Chat.selectedAttachment c = None → Chat.isProcessing c = false →
  (∃ k, k ∈ keywords ∧ includes (Chat.inputText c) k = true) →
  chatSubmit now c a = saveCurrentProblem now a.
Proof.
  intros Hatt Hproc (k & Hk & Hin). unfold chatSubmit, callsAutoSave, submitRejected.
  rewrite Hatt, Hproc, (includes_keyword_not_blank _ k Hk Hin),
    (givesUp_of_includes _ k Hk Hin). reflexivity.
Qed.

Lemma chatSubmit_cases now c a :
  chatSubmit now c a = saveCurrentProblem now a ∨ chatSubmit now c a = a.
Proof. unfold chatSubmit. destruct (callsAutoSave c); auto. Qed.

(** C4, as the code has it.  During a student's active problem, a
    submission without attachment, made while no reply is pending, whose
    text contains one of the give-up keywords archives the current problem:
    afterwards an entry with its id is in the mistake list, added at the
    head with the time of the submission when none was there and the list
    left as it was otherwise; any further submission leaves that list
    unchanged; the navigation state, the current problem and the user are
    unchanged; and the persistence effect stores the list as the student's
    archive. *)
Theorem autosave_archives_once now c a p u k :
  appState a = ProblemActive →
  currentProblem a = Some p →
  currentUser a = Some u →
  User.role u = student →
  Chat.selectedAttachment c = None →
  Chat.isProcessing c = false →
  k ∈ keywords →
  includes (Chat.inputText c) k = true →
  let a' := chatSubmit now c a in
  hasId (Problem.id p) (activeMistakes a')
  ∧ (hasId (Problem.id p) (activeMistakes a) → activeMistakes a' = activeMistakes a)
  ∧ (¬ hasId (Problem.id p) (activeMistakes a) →
     activeMistakes a' = Problem.with_timestamp p now :: activeMistakes a)
  ∧ (∀ now' c', chatSubmit now' c' a' = a')
  ∧ appState a' = appState a
  ∧ currentProblem a' = currentProblem a
  ∧ currentUser a' = currentUser a
  ∧ (∀ ls, getUserMistakes (User.id u) (runEffects a' ls) = activeMistakes a').
Proof.
  intros Hst Hp Hu Hrole Hatt Hproc Hk Hin a'.
  assert (a' = saveCurrentProblem now a) as Ha'.
  { apply chatSubmit_calls; eauto. }
  destruct (decide (hasId (Problem.id p) (activeMistakes a))) as [Hhas | Hno].
  - rewrite (saveCurrentProblem_present now a p Hp Hhas) in Ha'. subst a'.
    set (a' := chatSubmit now c a) in *. clearbody a'. subst a'.
    split_and!; try done.
    + intros now' c'. destruct (chatSubmit_cases now' c' a) as [-> | ->]; [| done].
      by apply (saveCurrentProblem_present _ _ p).
    + intros ls. apply runEffects_archive; [done | done | by rewrite Hst].
  - rewrite (saveCurrentProblem_absent now a p u Hp Hu Hrole Hno) in Ha'.
    clearbody a'. subst a'. simpl.
    assert (hasId (Problem.id p) (Problem.with_timestamp p now :: activeMistakes a))
      as Hnow by (by apply Exists_cons_hd).
    split_and!; try done.
    + intros now' c'.
      destruct (chatSubmit_cases now' c'
                  (setActiveMistakes (Problem.with_timestamp p now :: activeMistakes a) a))
        as [-> | ->]; [| done].
      by apply (saveCurrentProblem_present _ _ p).
    + intros ls. rewrite (runEffects_archive _ ls u); [done | done | done |].
      simpl. by rewrite Hst.
Qed.

Lemma autosave_archives_once_witness :
  let p := Problem.mk "1700000000000" "微分方程" "y' = y" None None None Medium None None in
  let u := User.mk "student_test_default" "test" (hashPassword "test")
             "测试学生" student false (Some 9%Z) (Some 2) in
  let a := mkApp (Some u) ProblemActive (Some p) false [] false None None in
  let c := Chat.mk [] "这题我不会" None false in
  activeMistakes (chatSubmit 5 c a) = [Problem.with_timestamp p 5].
Proof.
  intros p u a c.
  assert (H := autosave_archives_once 5 c a p u "不会" eq_refl eq_refl eq_refl
                 eq_refl eq_refl eq_refl (list_elem_of_here _ _) eq_refl).
  cbv zeta in H. destruct H as (_ & _ & Hnew & _).
  apply Hnew. unfold hasId, some. simpl. by intros ?%Exists_nil.
Defined.

(** C4, as stated, fails: a submission whose text contains a keyword but
    which carries an attachment archives nothing. *)
Lemma autosave_skipped_with_attachment :
  let p := Problem.mk "1700000000000" "微分方程" "y' = y" None None None Medium None None in
  let u := User.mk "student_test_default" "test" (hashPassword "test")
             "测试学生" student false (Some 9%Z) (Some 2) in
  let a := mkApp (Some u) ProblemActive (Some p) false [] false None None in
  let c := Chat.mk [] "这题我不会"
             (Some (Attachment.mk AttImage "image/png" "data:image/png;base64,AA=="
                      "draft.png" (Some false))) false in
  "不会" ∈ keywords
  ∧ includes (Chat.inputText c) "不会" = true
  ∧ submitRejected c = false
  ∧ chatSubmit 5 c a = a
  ∧ ¬ hasId (Problem.id p) (activeMistakes (chatSubmit 5 c a)).
Proof.
  intros p u a c. split_and!.
  - unfold keywords. apply list_elem_of_here.
  - vm_compute. reflexivity.
  - vm_compute. reflexivity.
  - reflexivity.
  - unfold hasId, some. simpl. by intros ?%Exists_nil.
Qed.

(** ** The archive keeps one problem per id *)

Lemma uniqueIds_removeId id l : uniqueIds l → uniqueIds (removeId id l).
Proof.
  unfold uniqueIds, removeId. intros Hl.
  eapply sublist_NoDup; [exact Hl | apply fmap_filter_sublist].
Qed.

Lemma removeId_not_hasId id l : ¬ hasId id (removeId id l).
Proof.
  unfold hasId, some, removeId. rewrite Exists_exists.
  intros (m & [Hne _]%list_elem_of_filter & Heq). done.
Qed.

Lemma uniqueIds_insert p now l :
  uniqueIds l → ¬ hasId (Problem.id p) l →
  uniqueIds (Problem.with_timestamp p now :: l).
Proof.
  unfold uniqueIds. intros Hl Hno. simpl. apply NoDup_cons. split; [| done].
  by rewrite <- hasId_elem.
Qed.

Lemma ids_replace (q : Problem.t) (l : list Problem.t) :
  Problem.id <$> ((λ m, if decide (Problem.id m = Problem.id q) then q else m) <$> l)
  = Problem.id <$> l.
Proof.
  rewrite <- list_fmap_compose. apply list_fmap_ext. intros i m _. simpl.
  by destruct (decide _).
Qed.

Lemma toggleMistake_unique now a :
  uniqueIds (activeMistakes a) → uniqueIds (activeMistakes (toggleMistake now a)).
Proof.
  intros Hu. unfold toggleMistake.
  destruct (currentProblem a) as [p |]; [| done].
  destruct (currentUser a) as [u |]; [| done].
  destruct (decide (User.role u ≠ student)); [done |].
  destruct (decide (hasId _ _)); simpl.
  - by apply uniqueIds_removeId.
  - by apply uniqueIds_insert.
Qed.

Lemma saveCurrentProblem_unique now a :
  uniqueIds (activeMistakes a) → uniqueIds (activeMistakes (saveCurrentProblem now a)).
Proof.
  intros Hu. unfold saveCurrentProblem.
  destruct (currentProblem a) as [p |]; [| done].
  destruct (currentUser a) as [u |]; [| done].
  destruct (decide (User.role u ≠ student)); [done |].
  destruct (decide (¬ hasId _ _)); simpl; [| done].
  by apply uniqueIds_insert.
Qed.

Lemma handleChatUpdate_unique messages a :
  uniqueIds (activeMistakes a) → uniqueIds (activeMistakes (handleChatUpdate messages a)).
Proof.
  intros Hu. unfold handleChatUpdate.
  destruct (currentProblem a) as [p |]; [| done].
  destruct (decide (hasId _ _)); simpl; [| done].
  unfold uniqueIds.
  by rewrite (ids_replace (Problem.with_chatHistory p messages)).
Qed.

Lemma handleLoginSuccess_unique user prev a ls :
  uniqueIds (activeMistakes a) → archivesUnique ls →
  uniqueIds (activeMistakes (handleLoginSuccess user prev a ls)).
Proof.
  intros Hu Hls. unfold handleLoginSuccess.
  destruct (User.isFirstLogin user); [done |].
  destruct (User.role user); [| done].
  destruct (decide (prev ≠ None)), (getLastSession _ _); simpl; apply Hls.
Qed.

Lemma archivesUnique_data ls ls' :
  data_cell ls' = data_cell ls → archivesUnique ls → archivesUnique ls'.
Proof.
  intros Heq Hls userId. specialize (Hls userId).
  unfold getUserMistakes, getDBData in *. by rewrite Heq.
Qed.

Lemma login_data now username password ls result ls' :
  login now username password ls = inr (result, ls') →
  data_cell ls' = data_cell ls.
Proof.
  unfold login, svc_bind, svc_get, svc_modify, svc_ret, throw.
  destruct (findIndex _ _) as [[i u] |]; [| done].
  destruct (decide _); [done |]. by intros [= _ <-].
Qed.

Lemma initializeAdmin_data ls : data_cell (initializeAdmin ls) = data_cell ls.
Proof.
  unfold initializeAdmin.
  destruct (decide (some _ (getDBUsers ls))); destruct (decide (some _ _));
    reflexivity.
Qed.

Lemma handle_unique e a ls :
  uniqueIds (activeMistakes a) → archivesUnique ls →
  uniqueIds (activeMistakes (handle e a ls).1) ∧ archivesUnique (handle e a ls).2.
Proof.
  intros Hu Hls. destruct e; simpl.
  - (* EMount *)
    split.
    + unfold mount. destruct (getCurrentUser ls); [| done].
      by apply handleLoginSuccess_unique.
    + apply (archivesUnique_data ls); [apply initializeAdmin_data | done].
  - (* ELoginSubmit *)
    unfold loginSubmit.
    destruct (login _ _ _ _) as [err | [result ls']] eqn:Hlogin; [done |].
    apply login_data in Hlogin.
    assert (archivesUnique ls') by (by apply (archivesUnique_data ls)).
    split; [by apply handleLoginSuccess_unique | done].
  - (* ELogout *)
    split; [apply NoDup_nil_2 | by apply (archivesUnique_data ls)].
  - (* EPasswordChanged *)
    split; [| done]. unfold handlePasswordChangeSuccess.
    destruct (getCurrentUser ls); [| done]. by apply handleLoginSuccess_unique.
  - (* ETopicSelect *)
    split; [| done]. unfold handleTopicSelect.
    by destruct (selectedTopic _ _).
  - (* EToggleMistake *)
    split; [by apply toggleMistake_unique | done].
  - (* EChatSubmit *)
    split; [| done]. unfold chatSubmit.
    destruct (callsAutoSave _); [by apply saveCurrentProblem_unique | done].
  - (* EChatUpdate *)
    split; [by apply handleChatUpdate_unique | done].
  - (* ECoachSelectStudent *)
    split; [apply Hls | done].
  - (* ENotebookSelect *)
    by split.
  - (* ENotebookDelete *)
    split; [by apply uniqueIds_removeId | done].
  - (* EProblemBack *)
    unfold problemBack. destruct (currentUser a) as [u |]; [| done].
    split; [done |]. apply (archivesUnique_data ls); [| done].
    apply saveLastSession_data.
  - by split.
  - by split.
  - by split.
  - by split.
  - by split.
Qed.

Lemma persistMistakes_unique a ls :
  uniqueIds (activeMistakes a) → archivesUnique ls →
  archivesUnique (persistMistakes a ls).
Proof.
  intros Hu Hls. unfold persistMistakes.
  destruct (currentUser a) as [u |]; [| done].
  destruct (decide _); [| done]. intros userId.
  rewrite getUserMistakes_saveUserMistakes. destruct (decide _); [done | apply Hls].
Qed.

Lemma persistSession_data a ls : data_cell (persistSession a ls) = data_cell ls.
Proof.
  unfold persistSession. destruct (currentUser a) as [u |]; [| done].
  destruct (decide _); [| done]. apply saveLastSession_data.
Qed.

Lemma runEffects_unique a ls :
  uniqueIds (activeMistakes a) → archivesUnique ls → archivesUnique (runEffects a ls).
Proof.
  intros Hu Hls. unfold runEffects.
  apply (archivesUnique_data (persistMistakes a ls)); [apply persistSession_data |].
  by apply persistMistakes_unique.
Qed.

Lemma staleChatUpdate_unique messages old a :
  uniqueIds (activeMistakes a) →
  uniqueIds (activeMistakes (staleChatUpdate messages old a)).
Proof.
  intros Hu. unfold staleChatUpdate.
  destruct (currentProblem old) as [p |]; [| done].
  destruct (decide (hasId _ _)); simpl; [| done].
  unfold uniqueIds.
  by rewrite (ids_replace (Problem.with_chatHistory p messages)).
Qed.

Lemma flushPending_unique e pend old s :
  uniqueIds (activeMistakes old) →
  uniqueIds (activeMistakes s.1) → archivesUnique s.2 →
  uniqueIds (activeMistakes (flushPending e pend old s).1)
  ∧ archivesUnique (flushPending e pend old s).2.
Proof.
  intros Hold Hu Hls. unfold flushPending.
  destruct (offeredByProblemView e && bool_decide (chatMounted old)); [| done].
  simpl. split.
  - destruct (pendingChat pend); [by apply staleChatUpdate_unique | done].
  - assert (archivesUnique
              (if pendingMistakes pend then persistMistakes old s.2 else s.2)) as Hm.
    { destruct (pendingMistakes pend); [by apply persistMistakes_unique | done]. }
    destruct (pendingSession pend); [| done].
    eapply archivesUnique_data; [apply persistSession_data | done].
Qed.

(** C6.  Every step of the machine, whichever effects of the previous
    render are still pending, keeps the in-memory archive and every stored
    archive free of repeated problem ids.  On a student's active
    problem whose id is archived, the toggle removes the entries of that id
    and the auto-save changes nothing. *)
Theorem archive_ids_stay_unique e pend a ls :
  uniqueIds (activeMistakes a) →
  archivesUnique ls →
  uniqueIds (activeMistakes (step e pend (a, ls)).1)
  ∧ archivesUnique (step e pend (a, ls)).2
  ∧ (∀ now p u,
       currentProblem a = Some p → currentUser a = Some u →
       User.role u = student →
       hasId (Problem.id p) (activeMistakes a) →
       activeMistakes (toggleMistake now a) = removeId (Problem.id p) (activeMistakes a)
       ∧ ¬ hasId (Problem.id p) (activeMistakes (toggleMistake now a))
       ∧ saveCurrentProblem now a = a).
Proof.
  intros Hu Hls.
  destruct (handle_unique e a ls Hu Hls) as [Hu' Hls'].
  destruct (flushPending_unique e pend a (handle e a ls) Hu Hu' Hls') as [Hu2 Hls2].
  unfold step. simpl.
  split_and!; [done | by apply runEffects_unique |].
  intros now p u Hp Hcur Hrole Hhas.
  assert (activeMistakes (toggleMistake now a)
          = removeId (Problem.id p) (activeMistakes a)) as Htog.
  { unfold toggleMistake. rewrite Hp, Hcur.
    rewrite decide_False by (by intros ?). by rewrite decide_True. }
  split_and!; [done | rewrite Htog; apply removeId_not_hasId |].
  by apply (saveCurrentProblem_present _ _ p).
Qed.

Lemma archive_ids_stay_unique_witness :
  let p := Problem.mk "1700000000000" "微分方程" "y' = y" None None None Medium None None in
  let u := User.mk "student_test_default" "test" (hashPassword "test")
             "测试学生" student false (Some 9%Z) (Some 2) in
  let a := mkApp (Some u) ProblemActive (Some p) false [Problem.with_timestamp p 4]
             false None None in
  uniqueIds (activeMistakes
               (step (EToggleMistake 5) (mkPending true true (Some []))
                  (a, emptyStorage)).1)
  ∧ saveCurrentProblem 6 a = a.
Proof.
  intros p u a.
  destruct (archive_ids_stay_unique (EToggleMistake 5)
              (mkPending true true (Some [])) a emptyStorage)
    as (Hu & _ & Hops).
  - unfold uniqueIds. simpl. apply NoDup_singleton.
  - intros userId. apply NoDup_nil_2.
  - split; [exact Hu |].
    apply (Hops 6%Z p u); try reflexivity.
    unfold hasId, some. by apply Exists_cons_hd.
Defined.

(** ** The random topic *)

(** Rounding to 53 significant bits moves an integer below [2 ^ (k + 54)] by
    at most [2 ^ k]. *)
Lemma round53_near (x k : N) :
  (x < 2 ^ (k + 54))%N →
  (round53 x ≤ x + 2 ^ k)%N ∧ (x ≤ round53 x + 2 ^ k)%N.
Proof.
  intros Hx. unfold round53.
  destruct (N.leb_spec (N.size x) 53) as [Hb | Hb]; [lia |].
  assert (x ≠ 0%N) as Hx0 by (intros ->; simpl in Hb; clear -Hb; lia).
  assert (N.size x - 53 - 1 ≤ k)%N as Hsk.
  { rewrite N.size_log2 in * by done.
    assert (N.log2 x < k + 54)%N by (apply N.log2_lt_pow2; lia). lia. }
  revert Hsk. generalize (N.size x - 53)%N (N.lt_add_lt_sub_r 0 (N.size x) 53).
  intros s Hs1 Hsk. rewrite N.add_0_l in Hs1. apply Hs1 in Hb. clear Hs1.
  assert (2 ^ (s - 1) ≤ 2 ^ k)%N as Hhalf by (apply N.pow_le_mono_r; lia).
  assert (2 ^ s = 2 * 2 ^ (s - 1))%N as Hpow.
  { rewrite <- N.pow_succ_r'. f_equal. lia. }
  assert (2 ^ (s - 1) ≠ 0)%N as Hnz by (apply N.pow_nonzero; lia).
  pose proof (N.div_mod x (2 ^ s)%N ltac:(lia)) as Hdm.
  pose proof (N.mod_lt x (2 ^ s)%N ltac:(lia)) as Hmod.
  revert Hdm Hmod. generalize (x / 2 ^ s)%N (x mod 2 ^ s)%N. intros q r Hdm Hmod.
  rewrite Hpow in *. revert Hhalf Hnz Hdm Hmod.
  generalize (2 ^ (s - 1))%N (2 ^ k)%N. intros h K Hhalf Hnz Hdm Hmod.
  destruct (N.ltb_spec r h); [nia |].
  destruct (N.ltb_spec h r); [nia |].
  destruct (N.even q); nia.
Qed.

(** The largest double below 1 is [1 - 2 ^ -53]. *)
Lemma UnitDouble_below_one (d : UnitDouble.t) :
  UnitDouble.wf d → (UnitDouble.scaled d + 2 ^ 1021 ≤ 2 ^ 1074)%N.
Proof.
  intros [Hm Hs]. unfold UnitDouble.scaled.
  assert (2 ^ UnitDouble.shift d ≤ 2 ^ 1021)%N as Hp by (apply N.pow_le_mono_r; lia).
  change (2 ^ 1074)%N with (2 ^ (53 + 1021))%N. rewrite N.pow_add_r.
  revert Hp. generalize (2 ^ 1021)%N (2 ^ UnitDouble.shift d)%N. intros P p Hp.
  nia.
Qed.

(** The rounded product stays below 7, so the index stays below 7; it is
    the integer part of the exact product up to the rounding error
    [2 ^ -51]. *)
Lemma randomIndex_near (rnd : UnitDouble.t) :
  UnitDouble.wf rnd →
  (randomIndex rnd < 7)%N
  ∧ (randomIndex rnd * 2 ^ 1074 ≤ UnitDouble.scaled rnd * 7 + 2 ^ 1023)%N
  ∧ (UnitDouble.scaled rnd * 7 < (randomIndex rnd + 1) * 2 ^ 1074 + 2 ^ 1023)%N.
Proof.
  intros Hwf. pose proof (UnitDouble_below_one rnd Hwf) as Hb.
  unfold randomIndex. change (N.of_nat (length TOPICS - 1)) with 7%N.
  set (x := (UnitDouble.scaled rnd * 7)%N) in *.
  assert (2 ^ 1074 = 9007199254740992 * 2 ^ 1021)%N as E74.
  { change 1074%N with (53 + 1021)%N. by rewrite N.pow_add_r. }
  assert (2 ^ 1023 = 4 * 2 ^ 1021)%N as E23.
  { change 1023%N with (2 + 1021)%N. by rewrite N.pow_add_r. }
  assert (2 ^ (1023 + 54) = 72057594037927936 * 2 ^ 1021)%N as E77.
  { change (1023 + 54)%N with (56 + 1021)%N. by rewrite N.pow_add_r. }
  assert (2 ^ 1021 ≠ 0)%N as Hnz by (apply N.pow_nonzero; lia).
  destruct (round53_near x 1023) as [Hhi Hlo].
  { rewrite E77. subst x. lia. }
  assert (round53 x < 7 * 2 ^ 1074)%N as Hlt by (subst x; lia).
  pose proof (N.Div0.mul_div_le (round53 x) (2 ^ 1074)%N) as Hd1.
  pose proof (N.mul_succ_div_gt (round53 x) (2 ^ 1074)%N ltac:(lia)) as Hd2.
  split_and!.
  - apply N.Div0.div_lt_upper_bound; lia.
  - lia.
  - lia.
Qed.

(** A product that needs no more than 53 bits is not rounded: on a draw
    with at most 50 significant bits the index is the integer part of the
    exact product, and each entry is drawn exactly on its seventh. *)
Lemma round53_exact (m j : N) :
  (m < 2 ^ 53)%N → round53 (m * 2 ^ j) = (m * 2 ^ j)%N.
Proof.
  intros Hm. unfold round53.
  destruct (N.leb_spec (N.size (m * 2 ^ j)) 53) as [Hb | Hb]; [done |].
  assert (m ≠ 0%N) as Hm0.
  { intros ->. rewrite N.mul_0_l in Hb. simpl in Hb. clear -Hb. lia. }
  assert (2 ^ j ≠ 0)%N as Hj0 by (apply N.pow_nonzero; lia).
  assert (N.size (m * 2 ^ j) = N.size m + j)%N as Hsize.
  { rewrite !N.size_log2 by lia. rewrite N.log2_mul_pow2 by lia. lia. }
  assert (N.size m ≤ 53)%N as Hsm.
  { rewrite N.size_log2 by done.
    assert (N.log2 m < 53)%N by (apply N.log2_lt_pow2; lia). lia. }
  rewrite Hsize in *.
  set (s := (N.size m + j - 53)%N).
  assert (j = s + (53 - N.size m))%N as Hjs by lia.
  assert (m * 2 ^ j = (m * 2 ^ (53 - N.size m)) * 2 ^ s)%N as Hfac.
  { rewrite Hjs at 1. rewrite N.pow_add_r. lia. }
  assert (2 ^ s ≠ 0)%N as Hs0 by (apply N.pow_nonzero; lia).
  assert (1 ≤ 2 ^ (s - 1))%N as Hh.
  { assert (2 ^ (s - 1) ≠ 0)%N by (apply N.pow_nonzero; lia). lia. }
  rewrite Hfac. rewrite N.Div0.mod_mul, N.div_mul by done.
  destruct (N.ltb_spec 0 (2 ^ (s - 1))); [done | lia].
Qed.

Lemma randomIndex_exact (rnd : UnitDouble.t) :
  (UnitDouble.mantissa rnd < 2 ^ 50)%N →
  randomIndex rnd = (UnitDouble.scaled rnd * 7 / 2 ^ 1074)%N.
Proof.
  intros Hm. unfold randomIndex, UnitDouble.scaled.
  change (N.of_nat (length TOPICS - 1)) with 7%N.
  replace (UnitDouble.mantissa rnd * 2 ^ UnitDouble.shift rnd * 7)%N
    with (UnitDouble.mantissa rnd * 7 * 2 ^ UnitDouble.shift rnd)%N by lia.
  rewrite round53_exact; [done |].
  change (2 ^ 50)%N with 1125899906842624%N in Hm.
  change (2 ^ 53)%N with 9007199254740992%N. lia.
Qed.

(** Where the two differ: the largest double below 4/7.  The exact product
    is [4 - 2 ^ -52], halfway between two doubles; it is rounded to 4. *)
Example randomTopic_tie :
  let rnd := UnitDouble.mk 5146971002709138 1021 in
  UnitDouble.wf rnd
  ∧ (UnitDouble.scaled rnd * 7 / 2 ^ 1074 = 3)%N
  ∧ randomIndex rnd = 4%N
  ∧ randomTopic rnd = Some "线性代数 (矩阵/行列式)".
Proof.
  split_and!; [split; by vm_compute | by vm_compute ..].
Qed.


Lemma concrete_topics k :
  (k < 7)%nat →
  ∃ topic, TOPICS !! k = Some topic ∧ topic ≠ RANDOM_TOPIC ∧ topic ∈ take 7 TOPICS.
Proof.
  intros Hk.
  do 7 (destruct k as [| k];
        [eexists; split_and!;
           [reflexivity | discriminate | unfold TOPICS; simpl; set_solver] |]).
  lia.
Qed.

Lemma randomTopic_concrete rnd :
  UnitDouble.wf rnd →
  ∃ topic, randomTopic rnd = Some topic ∧ topic ≠ RANDOM_TOPIC
           ∧ topic ∈ take 7 TOPICS.
Proof.
  intros Hwf. destruct (randomIndex_near rnd Hwf) as (Hlt & _).
  unfold randomTopic. apply concrete_topics. lia.
Qed.

Lemma selectedTopic_total rnd topic :
  UnitDouble.wf rnd → is_Some (selectedTopic rnd topic).
Proof.
  intros Hwf. unfold selectedTopic. destruct (decide _); [| by eexists].
  destruct (randomTopic_concrete rnd Hwf) as (t & -> & _). by eexists.
Qed.




(** * Further properties of the modelled code *)

(** ** initializeAdmin *)

Lemma hasUsername_elem name users :
  hasUsername name users ↔ name ∈ usernames users.
Proof.
  unfold hasUsername, some, usernames. rewrite Exists_exists, list_elem_of_fmap.
  split; intros (u & ? & ?); exists u; done.
Qed.

Lemma hasUsername_app name l1 l2 :
  hasUsername name (l1 ++ l2) ↔ hasUsername name l1 ∨ hasUsername name l2.
Proof. unfold hasUsername, some. apply Exists_app. Qed.

Lemma initializeAdmin_unfold ls :
  initializeAdmin ls
  = if decide (hasUsername "Coach" (getDBUsers ls) ∧ hasUsername "test" (getDBUsers ls))
    then ls
    else saveDBUsers (getDBUsers ls ++ bootstrapAdded (getDBUsers ls)) ls.
Proof.
  unfold initializeAdmin, bootstrapAdded, hasUsername.
  destruct (decide (some (λ u, User.username u = "Coach") (getDBUsers ls)))
    as [Hc | Hc].
  - destruct (decide (some (λ u, User.username u = "test") (getDBUsers ls)))
      as [Ht | Ht].
    + by rewrite decide_True.
    + rewrite decide_False by (by intros [_ ?]). reflexivity.
  - rewrite (decide_False (P := _ ∧ _)) by (by intros [? _]).
    destruct (decide (some (λ u, User.username u = "test") (getDBUsers ls)))
      as [Ht | Ht].
    + rewrite decide_True; [by rewrite app_nil_r |].
      unfold some. apply Exists_app. by left.
    + rewrite decide_False; [by rewrite <- app_assoc |].
      unfold some. rewrite Exists_app, Exists_cons, Exists_nil. simpl.
      intros [? | [? | []]]; [done | discriminate].
Qed.

Lemma bootstrap_complete users :
  hasUsername "Coach" (users ++ bootstrapAdded users)
  ∧ hasUsername "test" (users ++ bootstrapAdded users).
Proof.
  unfold bootstrapAdded. split; rewrite hasUsername_app.
  - destruct (decide (hasUsername "Coach" users)); [by left |].
    right. apply hasUsername_app. left. by apply Exists_cons_hd.
  - destruct (decide (hasUsername "test" users)); [by left |].
    right. apply hasUsername_app. right. by apply Exists_cons_hd.
Qed.

(** X1.  Running the bootstrap a second time changes nothing. *)
Theorem initializeAdmin_idempotent ls :
  initializeAdmin (initializeAdmin ls) = initializeAdmin ls.
Proof.
  rewrite (initializeAdmin_unfold (initializeAdmin ls)).
  rewrite decide_True; [done |].
  rewrite (initializeAdmin_unfold ls).
  destruct (decide _) as [H | _]; [exact H |].
  rewrite getDBUsers_saveDBUsers. apply bootstrap_complete.
Qed.

(** X2.  The bootstrap keeps every stored record in place, appends at most
    the two fixed accounts, and afterwards both usernames are present; it
    keeps pairwise distinct usernames distinct and writes no other cell. *)
Theorem initializeAdmin_ensures_accounts ls :
  getDBUsers (initializeAdmin ls) = getDBUsers ls ++ bootstrapAdded (getDBUsers ls)
  ∧ hasUsername "Coach" (getDBUsers (initializeAdmin ls))
  ∧ hasUsername "test" (getDBUsers (initializeAdmin ls))
  ∧ (hasUsername "Coach" (getDBUsers ls) → hasUsername "test" (getDBUsers ls) →
     initializeAdmin ls = ls)
  ∧ (NoDup (usernames (getDBUsers ls)) →
     NoDup (usernames (getDBUsers (initializeAdmin ls))))
  ∧ current_user_cell (initializeAdmin ls) = current_user_cell ls
  ∧ data_cell (initializeAdmin ls) = data_cell ls
  ∧ last_session_cells (initializeAdmin ls) = last_session_cells ls.
Proof.
  assert (getDBUsers (initializeAdmin ls)
          = getDBUsers ls ++ bootstrapAdded (getDBUsers ls)) as Hroster.
  { rewrite initializeAdmin_unfold. destruct (decide _) as [[Hc Ht] | _].
    - unfold bootstrapAdded. rewrite !decide_True by done. by rewrite app_nil_r.
    - apply getDBUsers_saveDBUsers. }
  split_and!.
  - exact Hroster.
  - rewrite Hroster. apply bootstrap_complete.
  - rewrite Hroster. apply bootstrap_complete.
  - intros Hc Ht. rewrite initializeAdmin_unfold. by rewrite decide_True.
  - intros Hnd. rewrite Hroster. unfold usernames, bootstrapAdded.
    rewrite !fmap_app. apply NoDup_app. split_and!; [exact Hnd | |].
    + intros x Hx Hin.
      destruct (decide (hasUsername "Coach" (getDBUsers ls))) as [? | Hc],
               (decide (hasUsername "test" (getDBUsers ls))) as [? | Ht];
        simpl in Hin; repeat (apply elem_of_cons in Hin as [-> | Hin]);
        try (by apply elem_of_nil in Hin);
        first [by apply Hc, hasUsername_elem | by apply Ht, hasUsername_elem].
    + destruct (decide (hasUsername "Coach" (getDBUsers ls))),
               (decide (hasUsername "test" (getDBUsers ls))); simpl;
        repeat (apply NoDup_cons; split); try apply NoDup_nil_2;
        rewrite ?elem_of_cons, ?elem_of_nil;
        first [by intros [] | by intros [? | []]].
  - rewrite initializeAdmin_unfold. by destruct (decide _).
  - rewrite initializeAdmin_unfold. by destruct (decide _).
  - rewrite initializeAdmin_unfold. by destruct (decide _).
Qed.

(** ** login, further *)

(** X3.  The outcome of [login] is decided by the first record with the
    given username: none gives the unknown-user error, one whose digest
    differs gives the wrong-password error, one whose digest matches gives
    success; the not-found error of the id-keyed operations never occurs. *)
Theorem login_outcome now username password ls :
  (login now username password ls = inl ErrNoSuchUser
   ↔ username ∉ usernames (getDBUsers ls))
  ∧ (login now username password ls = inl ErrWrongPassword
     ↔ ∃ i u, firstWithUsername (getDBUsers ls) i u ∧ User.username u = username
              ∧ User.passwordHash u ≠ hashPassword password)
  ∧ (is_Some (match login now username password ls with
              | inr x => Some x | inl _ => None end)
     ↔ ∃ i u, firstWithUsername (getDBUsers ls) i u ∧ User.username u = username
              ∧ User.passwordHash u = hashPassword password)
  ∧ login now username password ls ≠ inl ErrUserNotFound.
Proof.
  destruct (findIndex (λ u, User.username u = username) (getDBUsers ls))
    as [[i u] |] eqn:Hfind.
  - assert (firstWithUsername (getDBUsers ls) i u ∧ User.username u = username)
      as [Hfirst Hname].
    { apply list_find_Some in Hfind as (Hi & Hu & Hlt).
      split; [| done]. split; [done |]. intros j v Hj Hji. rewrite Hu.
      by apply (Hlt j v). }
    assert (∀ j v, firstWithUsername (getDBUsers ls) j v → User.username v = username
                   → v = u) as Huniq.
    { intros j v Hv Hvn. rewrite <- Hvn in Hfind.
      rewrite (findIndex_username _ _ _ Hv) in Hfind. congruence. }
    assert (username ∈ usernames (getDBUsers ls)) as Hin.
    { rewrite <- Hname. unfold usernames. apply list_elem_of_fmap.
      exists u. split; [done |]. destruct Hfirst as [Hi _].
      by eapply list_elem_of_lookup_2. }
    destruct (decide (User.passwordHash u = hashPassword password)) as [Heq | Hne].
    + rewrite (login_found _ _ _ _ i u Hfind Heq). split_and!.
      * split; [discriminate | done].
      * split; [discriminate |]. intros (j & v & Hv & Hvn & Hvh).
        rewrite (Huniq j v Hv Hvn) in Hvh. done.
      * split; [by exists i, u | by eexists].
      * discriminate.
    + rewrite (login_wrong_password _ _ _ _ i u Hfind Hne). split_and!.
      * split; [discriminate | done].
      * split; [by exists i, u | done].
      * split; [by intros [? ?] |]. intros (j & v & Hv & Hvn & Hvh).
        rewrite (Huniq j v Hv Hvn) in Hvh. done.
      * discriminate.
  - rewrite (login_no_such_user _ _ _ _ Hfind).
    assert (username ∉ usernames (getDBUsers ls)) as Hnin.
    { intros Hin. unfold usernames in Hin.
      apply list_elem_of_fmap in Hin as (u & Hu & Hin).
      apply list_find_None in Hfind. rewrite Forall_forall in Hfind.
      by apply (Hfind u Hin). }
    assert (¬ ∃ i u, firstWithUsername (getDBUsers ls) i u ∧ User.username u = username)
      as Hnone.
    { intros (i & u & [Hi _] & Hname). apply Hnin. rewrite <- Hname.
      unfold usernames. apply list_elem_of_fmap. exists u. split; [done |].
      by eapply list_elem_of_lookup_2. }
    split_and!.
    + done.
    + split; [discriminate |]. intros (i & u & ? & ? & _).
      exfalso. apply Hnone. eauto.
    + split; [by intros [? ?] |]. intros (i & u & ? & ? & _).
      exfalso. apply Hnone. eauto.
    + discriminate.
Qed.

Lemma fmap_insert_same {A B} (f : A → B) (l : list A) i x y :
  l !! i = Some x → f y = f x → f <$> <[i := y]> l = f <$> l.
Proof.
  intros Hi Hf. rewrite list_fmap_insert, Hf. apply list_insert_id.
  by rewrite list_lookup_fmap, Hi.
Qed.

(** X4.  A successful login rewrites only the login statistics of the
    record it found: usernames, ids, digests, roles and first-login flags
    of the whole roster are as before, every other record is untouched, and
    the archive and last-session cells are not written. *)
Theorem login_keeps_roster_shape now username password ls result ls' :
  login now username password ls = inr (result, ls') →
  usernames (getDBUsers ls') = usernames (getDBUsers ls)
  ∧ User.id <$> getDBUsers ls' = User.id <$> getDBUsers ls
  ∧ User.passwordHash <$> getDBUsers ls' = User.passwordHash <$> getDBUsers ls
  ∧ User.role <$> getDBUsers ls' = User.role <$> getDBUsers ls
  ∧ User.isFirstLogin <$> getDBUsers ls' = User.isFirstLogin <$> getDBUsers ls
  ∧ (∀ j v, getDBUsers ls !! j = Some v →
            User.username v ≠ username → getDBUsers ls' !! j = Some v)
  ∧ data_cell ls' = data_cell ls
  ∧ last_session_cells ls' = last_session_cells ls.
Proof.
  intros Hlogin.
  destruct (findIndex (λ u, User.username u = username) (getDBUsers ls))
    as [[i u] |] eqn:Hfind.
  2: { by rewrite (login_no_such_user _ _ _ _ Hfind) in Hlogin. }
  destruct (decide (User.passwordHash u = hashPassword password)) as [Heq | Hne].
  2: { by rewrite (login_wrong_password _ _ _ _ i u Hfind Hne) in Hlogin. }
  rewrite (login_found _ _ _ _ i u Hfind Heq) in Hlogin.
  injection Hlogin as _ <-.
  apply list_find_Some in Hfind as (Hi & Hu & _).
  unfold usernames.
  split_and!; try (by apply (fmap_insert_same _ _ i u)); try reflexivity.
  intros j v Hj Hv.
  assert (j ≠ i) by (intros ->; congruence).
  change (<[i := loggedIn now u]> (getDBUsers ls) !! j = Some v).
  by rewrite list_lookup_insert_ne.
Qed.

Lemma login_keeps_roster_shape_witness :
  ∃ result ls',
    login 5 "test" "test" (initializeAdmin emptyStorage) = inr (result, ls')
    ∧ usernames (getDBUsers ls') = usernames (getDBUsers (initializeAdmin emptyStorage)).
Proof.
  eexists _, _. split; [vm_compute; reflexivity |].
  apply (login_keeps_roster_shape 5 "test" "test" (initializeAdmin emptyStorage)
           (LoginResult.mk (loggedIn 5 testRecord) None)).
  vm_compute. reflexivity.
Defined.

(** ** updatePassword and reset, further *)

(** X5.  After [updatePassword] for a registered user who is the first
    record of the roster with its id and the first with its username (every
    registered user when neither is repeated), a login with the new
    password succeeds and yields a record that is past its first login, and
    a login with any password of a different digest is refused. *)
Theorem updatePassword_then_login now newPassword ls i u :
  firstWithId (getDBUsers ls) i u →
  firstWithUsername (getDBUsers ls) i u →
  ∃ updated ls1 result ls2,
    updatePassword (User.id u) newPassword ls = inr (updated, ls1)
    ∧ login now (User.username u) newPassword ls1 = inr (result, ls2)
    ∧ User.isFirstLogin (LoginResult.user result) = false
    ∧ User.id (LoginResult.user result) = User.id u
    ∧ (∀ other, hashPassword other ≠ hashPassword newPassword →
         login now (User.username u) other ls1 = inl ErrWrongPassword).
Proof.
  intros Hid Hname.
  set (updated := rotated (hashPassword newPassword) u).
  assert (findIndex (λ x, User.username x = User.username u)
            (<[i := updated]> (getDBUsers ls)) = Some (i, updated)) as Hfind.
  { apply (findIndex_username _ i updated).
    apply (firstWithUsername_insert _ _ u); [exact Hname | reflexivity]. }
  exists updated. eexists. eexists. eexists. split.
  { apply (updatePassword_found _ _ _ i). by apply findIndex_id. }
  split.
  { apply (login_found _ _ _ _ i updated); [exact Hfind | reflexivity]. }
  split_and!; try reflexivity.
  intros other Hother.
  apply (login_wrong_password _ _ _ _ i updated); [exact Hfind |].
  simpl. congruence.
Qed.

Lemma updatePassword_then_login_witness :
  ∃ updated ls1 result ls2,
    updatePassword "student_test_default" "feynman" (initializeAdmin emptyStorage)
    = inr (updated, ls1)
    ∧ login 8 "test" "feynman" ls1 = inr (result, ls2)
    ∧ login 8 "test" "test" ls1 = inl ErrWrongPassword.
Proof.
  destruct (updatePassword_then_login 8 "feynman" (initializeAdmin emptyStorage) 1
              testRecord)
    as (updated & ls1 & result & ls2 & Hup & Hlogin & _ & _ & Hold).
  - split; [reflexivity |].
    intros j v Hj Hlt. assert (j = 0) as -> by lia.
    vm_compute in Hj. injection Hj as <-. discriminate.
  - split; [reflexivity |].
    intros j v Hj Hlt. assert (j = 0) as -> by lia.
    vm_compute in Hj. injection Hj as <-. discriminate.
  - exists updated, ls1, result, ls2. split_and!; [exact Hup | exact Hlogin |].
    apply Hold. vm_compute. discriminate.
Defined.

(** X6.  [updatePassword] and [resetUserPasswordToUsername], when they
    succeed, leave the usernames, ids, roles and login statistics of the
    whole roster as they were. *)
Theorem password_operations_keep_identities userId newPassword ls ls' :
  (∃ updated, updatePassword userId newPassword ls = inr (updated, ls'))
  ∨ resetUserPasswordToUsername userId ls = inr (tt, ls') →
  usernames (getDBUsers ls') = usernames (getDBUsers ls)
  ∧ User.id <$> getDBUsers ls' = User.id <$> getDBUsers ls
  ∧ User.role <$> getDBUsers ls' = User.role <$> getDBUsers ls
  ∧ User.lastLogin <$> getDBUsers ls' = User.lastLogin <$> getDBUsers ls
  ∧ User.loginCount <$> getDBUsers ls' = User.loginCount <$> getDBUsers ls.
Proof.
  destruct (findIndex (λ x, User.id x = userId) (getDBUsers ls))
    as [[i u] |] eqn:Hfind.
  - assert (getDBUsers ls !! i = Some u) as Hi.
    { by apply list_find_Some in Hfind as (? & _). }
    rewrite (updatePassword_found _ _ _ i u Hfind), (reset_found _ _ i u Hfind).
    intros [[updated [= _ <-]] | [= <-]]; unfold usernames;
      split_and!; by apply (fmap_insert_same _ _ i u).
  - rewrite (updatePassword_not_found _ _ _ Hfind), (reset_not_found _ _ Hfind).
    by intros [[? ?] | ?].
Qed.

Lemma password_operations_keep_identities_witness :
  ∃ ls',
    resetUserPasswordToUsername "student_test_default" (initializeAdmin emptyStorage)
    = inr (tt, ls')
    ∧ usernames (getDBUsers ls') = usernames (getDBUsers (initializeAdmin emptyStorage)).
Proof.
  eexists. split; [vm_compute; reflexivity |].
  apply (password_operations_keep_identities "student_test_default" ""
           (initializeAdmin emptyStorage)).
  right. vm_compute. reflexivity.
Defined.

(** X7 (errors).  The id-keyed operations fail with the not-found error
    exactly when no record carries the id. *)
Theorem password_operations_not_found userId newPassword ls :
  (updatePassword userId newPassword ls = inl ErrUserNotFound
   ↔ userId ∉ User.id <$> getDBUsers ls)
  ∧ (resetUserPasswordToUsername userId ls = inl ErrUserNotFound
     ↔ userId ∉ User.id <$> getDBUsers ls).
Proof.
  destruct (findIndex (λ x, User.id x = userId) (getDBUsers ls))
    as [[i u] |] eqn:Hfind.
  - assert (userId ∈ User.id <$> getDBUsers ls) as Hin.
    { apply list_find_Some in Hfind as (Hi & Hu & _).
      apply list_elem_of_fmap. exists u. split; [done |].
      by eapply list_elem_of_lookup_2. }
    rewrite (updatePassword_found _ _ _ i u Hfind), (reset_found _ _ i u Hfind).
    split; (split; [discriminate | done]).
  - assert (userId ∉ User.id <$> getDBUsers ls) as Hnin.
    { intros (u & Hu & Hin)%list_elem_of_fmap.
      apply list_find_None in Hfind. rewrite Forall_forall in Hfind.
      by apply (Hfind u Hin). }
    rewrite (updatePassword_not_found _ _ _ Hfind), (reset_not_found _ _ Hfind).
    split; done.
Qed.

(** ** registerBatchUsers and getStudents, further *)

Lemma registerBatchUsers_roster mkId raw ls n ls' :
  registerBatchUsers mkId raw ls = inr (n, ls') →
  getDBUsers ls'
  = getDBUsers ls ++ filter (passesFilter (getDBUsers ls)) (imap (batchRecord mkId) raw)
  ∧ n = length (filter (passesFilter (getDBUsers ls)) (imap (batchRecord mkId) raw))
  ∧ current_user_cell ls' = current_user_cell ls
  ∧ data_cell ls' = data_cell ls
  ∧ last_session_cells ls' = last_session_cells ls.
Proof. rewrite registerBatchUsers_result. by intros [= <- <-]. Qed.

Lemma passesFilter_iff users nu :
  passesFilter users nu ↔ User.username nu ∉ usernames users.
Proof. unfold passesFilter. by rewrite <- hasUsername_elem. Qed.

(** X8.  After a batch registration, every entry of the batch whose
    username was new to the roster can log in with the username as
    password; the record found is a student on first login with no
    earlier login. *)
Theorem registerBatchUsers_then_login mkId raw ls n ls' now r :
  registerBatchUsers mkId raw ls = inr (n, ls') →
  r ∈ raw →
  RawUser.username r ∉ usernames (getDBUsers ls) →
  ∃ result ls2,
    login now (RawUser.username r) (RawUser.username r) ls' = inr (result, ls2)
    ∧ User.username (LoginResult.user result) = RawUser.username r
    ∧ User.isFirstLogin (LoginResult.user result) = true
    ∧ User.role (LoginResult.user result) = student
    ∧ User.loginCount (LoginResult.user result) = Some 1
    ∧ LoginResult.previousLogin result = None.
Proof.
  intros Hcall Hr Hnew.
  apply registerBatchUsers_roster in Hcall as (Hroster & _).
  set (inserted := filter (passesFilter (getDBUsers ls)) (imap (batchRecord mkId) raw))
    in *.
  assert (∃ nu, nu ∈ inserted ∧ User.username nu = RawUser.username r)
    as (nu0 & Hnu0 & Hname0).
  { apply list_elem_of_lookup in Hr as [k Hk].
    exists (batchRecord mkId k r). split; [| reflexivity].
    apply list_elem_of_filter. split; [by apply passesFilter_iff |].
    by apply elem_of_lookup_imap_2. }
  destruct (list_find_elem_of (λ u, User.username u = RawUser.username r)
              (getDBUsers ls') nu0) as [[i u] Hfind].
  { rewrite Hroster. apply elem_of_app. by right. }
  { exact Hname0. }
  pose proof Hfind as (Hi & Hu & _)%list_find_Some.
  assert (u ∈ inserted) as Hin.
  { apply list_elem_of_lookup_2 in Hi. rewrite Hroster in Hi.
    apply elem_of_app in Hi as [Hold | ?]; [| done].
    exfalso. apply Hnew. rewrite <- Hu. unfold usernames.
    apply list_elem_of_fmap. by exists u. }
  apply list_elem_of_filter in Hin as [_ Hin].
  apply elem_of_lookup_imap in Hin as (k & r' & -> & _).
  eexists _, _. split.
  { apply (login_found _ _ _ _ i (batchRecord mkId k r')); [exact Hfind |].
    simpl in *. by rewrite Hu. }
  split_and!; try reflexivity. exact Hu.
Qed.

Lemma registerBatchUsers_then_login_witness :
  ∃ n ls' result ls2,
    registerBatchUsers (λ k, "u_" +:+ pretty k) [RawUser.mk "A" "a"]
      (initializeAdmin emptyStorage) = inr (n, ls')
    ∧ login 3 "a" "a" ls' = inr (result, ls2)
    ∧ User.isFirstLogin (LoginResult.user result) = true.
Proof.
  set (ls' := saveDBUsers
                (getDBUsers (initializeAdmin emptyStorage)
                 ++ [batchRecord (λ k, "u_" +:+ pretty k) 0 (RawUser.mk "A" "a")])
                (initializeAdmin emptyStorage)).
  destruct (registerBatchUsers_then_login (λ k, "u_" +:+ pretty k)
              [RawUser.mk "A" "a"] (initializeAdmin emptyStorage) 1 ls'
              3 (RawUser.mk "A" "a"))
    as (result & ls2 & Hlogin & _ & Hfirst & _).
  - reflexivity.
  - apply list_elem_of_here.
  - vm_compute. intros Hin.
    repeat (apply elem_of_cons in Hin as [Hin | Hin]; [discriminate |]).
    by apply elem_of_nil in Hin.
  - exists 1, ls', result, ls2.
    split_and!; [reflexivity | exact Hlogin | exact Hfirst].
Defined.

Lemma filter_none {A} (P : A → Prop) `{∀ x, Decision (P x)} (l : list A) :
  (∀ x, x ∈ l → ¬ P x) → filter P l = [].
Proof.
  induction l as [| x l IH]; intros Hl; [done |].
  rewrite filter_cons_False by (apply Hl, list_elem_of_here).
  apply IH. intros y Hy. apply Hl. by apply list_elem_of_further.
Qed.

Lemma filter_all {A} (P : A → Prop) `{∀ x, Decision (P x)} (l : list A) :
  (∀ x, x ∈ l → P x) → filter P l = l.
Proof.
  induction l as [| x l IH]; intros Hl; [done |].
  rewrite filter_cons_True by (apply Hl, list_elem_of_here).
  f_equal. apply IH. intros y Hy. apply Hl. by apply list_elem_of_further.
Qed.

(** X9.  Importing again a batch that was just imported inserts nothing:
    the second call returns 0 and leaves the roster as the first left it. *)
Theorem registerBatchUsers_again mkId mkId' raw ls n ls' :
  registerBatchUsers mkId raw ls = inr (n, ls') →
  ∃ ls'',
    registerBatchUsers mkId' raw ls' = inr (0, ls'')
    ∧ getDBUsers ls'' = getDBUsers ls'.
Proof.
  intros Hcall.
  apply registerBatchUsers_roster in Hcall as (Hroster & _).
  rewrite registerBatchUsers_result.
  assert (filter (passesFilter (getDBUsers ls')) (imap (batchRecord mkId') raw) = [])
    as ->.
  { apply filter_none. intros nu Hnu Hpass.
    apply elem_of_lookup_imap in Hnu as (k & r & -> & Hk).
    apply passesFilter_iff in Hpass. apply Hpass. simpl.
    rewrite Hroster. unfold usernames. rewrite fmap_app. apply elem_of_app.
    destruct (decide (RawUser.username r ∈ usernames (getDBUsers ls)))
      as [Hold | Hnew]; [by left | right].
    apply list_elem_of_fmap. exists (batchRecord mkId k r). split; [done |].
    apply list_elem_of_filter. split; [by apply passesFilter_iff |].
    by apply elem_of_lookup_imap_2. }
  eexists. split; [reflexivity |].
  rewrite getDBUsers_saveDBUsers. apply app_nil_r.
Qed.

Lemma registerBatchUsers_again_witness :
  ∃ n ls' ls'',
    registerBatchUsers (λ k, "u_" +:+ pretty k) [RawUser.mk "A" "a"]
      (initializeAdmin emptyStorage) = inr (n, ls')
    ∧ registerBatchUsers (λ k, "v_" +:+ pretty k) [RawUser.mk "A" "a"] ls'
      = inr (0, ls'').
Proof.
  set (ls' := saveDBUsers
                (getDBUsers (initializeAdmin emptyStorage)
                 ++ [batchRecord (λ k, "u_" +:+ pretty k) 0 (RawUser.mk "A" "a")])
                (initializeAdmin emptyStorage)).
  destruct (registerBatchUsers_again (λ k, "u_" +:+ pretty k)
              (λ k, "v_" +:+ pretty k) [RawUser.mk "A" "a"]
              (initializeAdmin emptyStorage) 1 ls')
    as (ls'' & Hagain & _); [reflexivity |].
  exists 1, ls', ls''. split; [reflexivity | exact Hagain].
Defined.

(** X10.  The students listed after a batch registration are the students
    listed before, in the same order, followed by the inserted records in
    batch order; the count returned is the growth of that list.  A coach
    is never listed. *)
Theorem getStudents_after_registerBatchUsers mkId raw ls n ls' :
  registerBatchUsers mkId raw ls = inr (n, ls') →
  getStudents ls'
  = getStudents ls
    ++ filter (passesFilter (getDBUsers ls)) (imap (batchRecord mkId) raw)
  ∧ length (getStudents ls') = length (getStudents ls) + n
  ∧ (∀ u, u ∈ getStudents ls' → User.role u = student ∧ u ∈ getDBUsers ls').
Proof.
  intros Hcall.
  apply registerBatchUsers_roster in Hcall as (Hroster & Hn & _).
  set (inserted := filter (passesFilter (getDBUsers ls)) (imap (batchRecord mkId) raw))
    in *.
  assert (getStudents ls' = getStudents ls ++ inserted) as Heq.
  { unfold getStudents. rewrite Hroster, filter_app. f_equal.
    apply filter_all. intros u [_ Hu]%list_elem_of_filter.
    by apply elem_of_lookup_imap in Hu as (k & r & -> & _). }
  split_and!.
  - exact Heq.
  - rewrite Heq, length_app. by rewrite Hn.
  - intros u Hu. unfold getStudents in Hu.
    by apply list_elem_of_filter in Hu.
Qed.

Lemma getStudents_after_registerBatchUsers_witness :
  ∃ n ls',
    registerBatchUsers (λ k, "u_" +:+ pretty k) [RawUser.mk "A" "a"]
      (initializeAdmin emptyStorage) = inr (n, ls')
    ∧ length (getStudents ls') = 2.
Proof.
  set (ls' := saveDBUsers
                (getDBUsers (initializeAdmin emptyStorage)
                 ++ [batchRecord (λ k, "u_" +:+ pretty k) 0 (RawUser.mk "A" "a")])
                (initializeAdmin emptyStorage)).
  destruct (getStudents_after_registerBatchUsers (λ k, "u_" +:+ pretty k)
              [RawUser.mk "A" "a"] (initializeAdmin emptyStorage) 1 ls')
    as (_ & Hlen & _); [reflexivity |].
  exists 1, ls'. split; [reflexivity |]. rewrite Hlen. reflexivity.
Defined.

(** ** The archive and last-session stores, further *)

(** X11.  [saveUserMistakes] is a full replace for one user: the archive
    read back for that user is the list written, whether or not a record
    existed, every other user's archive reads as before, and no other cell
    is written. *)
Theorem saveUserMistakes_round_trip userId mistakes ls :
  getUserMistakes userId (saveUserMistakes userId mistakes ls) = mistakes
  ∧ (∀ other, other ≠ userId →
       getUserMistakes other (saveUserMistakes userId mistakes ls)
       = getUserMistakes other ls)
  ∧ users_cell (saveUserMistakes userId mistakes ls) = users_cell ls
  ∧ current_user_cell (saveUserMistakes userId mistakes ls) = current_user_cell ls
  ∧ last_session_cells (saveUserMistakes userId mistakes ls) = last_session_cells ls.
Proof.
  split_and!.
  - rewrite getUserMistakes_saveUserMistakes. by rewrite decide_True.
  - intros other Hne. rewrite getUserMistakes_saveUserMistakes.
    by rewrite decide_False.
  - unfold saveUserMistakes. by destruct (findIndex _ _) as [[? ?] |].
  - unfold saveUserMistakes. by destruct (findIndex _ _) as [[? ?] |].
  - unfold saveUserMistakes. by destruct (findIndex _ _) as [[? ?] |].
Qed.

(** X12.  [saveUserMistakes] keeps the records of the archive table in
    place and appends one only for a user who had none, so a table with
    one record per user keeps one record per user. *)
Theorem saveUserMistakes_one_record_per_user userId mistakes ls :
  UserData.userId <$> getDBData (saveUserMistakes userId mistakes ls)
  = (UserData.userId <$> getDBData ls)
    ++ (if decide (userId ∈ UserData.userId <$> getDBData ls) then [] else [userId])
  ∧ (NoDup (UserData.userId <$> getDBData ls) →
     NoDup (UserData.userId <$> getDBData (saveUserMistakes userId mistakes ls))).
Proof.
  assert (UserData.userId <$> getDBData (saveUserMistakes userId mistakes ls)
          = (UserData.userId <$> getDBData ls)
            ++ (if decide (userId ∈ UserData.userId <$> getDBData ls)
                then [] else [userId])) as Heq.
  { unfold saveUserMistakes, findIndex.
    destruct (list_find _ (getDBData ls)) as [[index d] |] eqn:Hfind.
    - rewrite getDBData_saveDBData.
      apply list_find_Some in Hfind as (Hidx & Hd & _).
      rewrite (fmap_insert_same _ _ index d) by done.
      rewrite decide_True; [by rewrite app_nil_r |].
      apply list_elem_of_fmap. exists d. split; [done |].
      by eapply list_elem_of_lookup_2.
    - rewrite getDBData_saveDBData, fmap_app. f_equal.
      rewrite decide_False; [done |].
      intros (d & Hd & Hin)%list_elem_of_fmap.
      apply list_find_None in Hfind. rewrite Forall_forall in Hfind.
      by apply (Hfind d Hin). }
  split; [exact Heq |]. intros Hnd. rewrite Heq.
  destruct (decide _) as [Hin | Hnin]; [by rewrite app_nil_r |].
  apply NoDup_app. split_and!; [done | | apply NoDup_singleton].
  intros x Hx ->%list_elem_of_singleton. done.
Qed.

Lemma saveUserMistakes_one_record_per_user_witness :
  NoDup (UserData.userId <$>
           getDBData (saveUserMistakes "u1" [] (saveUserMistakes "u1" [] emptyStorage))).
Proof.
  apply saveUserMistakes_one_record_per_user.
  vm_compute. apply NoDup_singleton.
Defined.

(** X13.  The last-session pointer round-trips: a problem written for a
    user is read back whole, writing [null] leaves no pointer, the pointers
    of other users are not touched, and no other cell is written. *)
Theorem saveLastSession_round_trip userId problem ls :
  getLastSession userId (saveLastSession userId problem ls) = problem
  ∧ (∀ other, other ≠ userId →
       getLastSession other (saveLastSession userId problem ls)
       = getLastSession other ls)
  ∧ users_cell (saveLastSession userId problem ls) = users_cell ls
  ∧ data_cell (saveLastSession userId problem ls) = data_cell ls
  ∧ current_user_cell (saveLastSession userId problem ls) = current_user_cell ls.
Proof.
  split_and!; try (by destruct problem).
  - apply getLastSession_saveLastSession.
  - intros other Hne. unfold getLastSession. destruct problem; simpl.
    + by apply lookup_insert_ne.
    + by apply lookup_delete_ne.
Qed.

(** ** The machine and the stores *)

Lemma handle_data e a ls : data_cell (handle e a ls).2 = data_cell ls.
Proof.
  destruct e; simpl; try reflexivity.
  - apply initializeAdmin_data.
  - unfold loginSubmit.
    destruct (login _ _ _ _) as [err | [result ls']] eqn:Hlogin; [done |].
    by apply login_data in Hlogin.
  - unfold problemBack. destruct (currentUser a); [| done].
    apply saveLastSession_data.
Qed.

Lemma getUserMistakes_data ls ls' userId :
  data_cell ls' = data_cell ls → getUserMistakes userId ls' = getUserMistakes userId ls.
Proof. intros Heq. unfold getUserMistakes, getDBData. by rewrite Heq. Qed.

Lemma persistMistakes_cells a ls :
  users_cell (persistMistakes a ls) = users_cell ls
  ∧ current_user_cell (persistMistakes a ls) = current_user_cell ls
  ∧ last_session_cells (persistMistakes a ls) = last_session_cells ls.
Proof.
  unfold persistMistakes. destruct (currentUser a) as [u |]; [| done].
  destruct (decide _); [| done]. unfold saveUserMistakes.
  by destruct (findIndex _ _) as [[? ?] |].
Qed.

Lemma persistSession_cells a ls :
  users_cell (persistSession a ls) = users_cell ls
  ∧ current_user_cell (persistSession a ls) = current_user_cell ls.
Proof.
  unfold persistSession. destruct (currentUser a) as [u |]; [| done].
  destruct (decide _); [| done]. by destruct (currentProblem a).
Qed.

(** A persistence effect that writes what the cell holds changes nothing
    that can be read back. *)
Lemma getUserMistakes_persistMistakes a ls userId :
  (∀ u, currentUser a = Some u → User.id u = userId →
        getUserMistakes userId ls = activeMistakes a) →
  getUserMistakes userId (persistMistakes a ls) = getUserMistakes userId ls.
Proof.
  intros Hsync. unfold persistMistakes.
  destruct (currentUser a) as [u |]; [| done].
  destruct (decide _); [| done].
  rewrite getUserMistakes_saveUserMistakes.
  destruct (decide (userId = User.id u)) as [-> | ?]; [| done].
  symmetry. by apply (Hsync u).
Qed.

Lemma getLastSession_persistSession a ls userId :
  (∀ u, currentUser a = Some u → User.id u = userId →
        getLastSession userId ls = currentProblem a) →
  getLastSession userId (persistSession a ls) = getLastSession userId ls.
Proof.
  intros Hsync. unfold persistSession.
  destruct (currentUser a) as [u |]; [| done].
  destruct (decide _); [| done].
  destruct (decide (userId = User.id u)) as [-> | Hne].
  - rewrite getLastSession_saveLastSession. symmetry. by apply (Hsync u).
  - unfold getLastSession. destruct (currentProblem a); simpl.
    + by apply lookup_insert_ne.
    + by apply lookup_delete_ne.
Qed.

Lemma getLastSession_persistMistakes a ls userId :
  getLastSession userId (persistMistakes a ls) = getLastSession userId ls.
Proof.
  unfold getLastSession. by destruct (persistMistakes_cells a ls) as (_ & _ & ->).
Qed.

(** What the pending effects leave of the storage. *)
Lemma flushPending_cells e pend old s :
  users_cell (flushPending e pend old s).2 = users_cell s.2
  ∧ current_user_cell (flushPending e pend old s).2 = current_user_cell s.2.
Proof.
  unfold flushPending.
  destruct (offeredByProblemView e && bool_decide (chatMounted old)); [| done].
  simpl.
  assert (users_cell (if pendingMistakes pend then persistMistakes old s.2 else s.2)
          = users_cell s.2
          ∧ current_user_cell
              (if pendingMistakes pend then persistMistakes old s.2 else s.2)
            = current_user_cell s.2) as [Hu Hc].
  { destruct (pendingMistakes pend); [| done].
    by destruct (persistMistakes_cells old s.2) as (? & ? & _). }
  destruct (pendingSession pend); [| done].
  destruct (persistSession_cells old
              (if pendingMistakes pend then persistMistakes old s.2 else s.2))
    as [-> ->]. done.
Qed.

Lemma flushPending_archive e pend old s userId :
  (pendingMistakes pend = true →
   ∀ u, currentUser old = Some u → User.id u = userId →
        getUserMistakes userId s.2 = activeMistakes old) →
  getUserMistakes userId (flushPending e pend old s).2 = getUserMistakes userId s.2.
Proof.
  intros Hsync. unfold flushPending.
  destruct (offeredByProblemView e && bool_decide (chatMounted old)); [| done].
  simpl.
  assert (getUserMistakes userId
            (if pendingMistakes pend then persistMistakes old s.2 else s.2)
          = getUserMistakes userId s.2) as Hm.
  { destruct (pendingMistakes pend); [| done].
    apply getUserMistakes_persistMistakes. by apply Hsync. }
  destruct (pendingSession pend); [| done].
  rewrite <- Hm. apply getUserMistakes_data, persistSession_data.
Qed.

Lemma flushPending_session e pend old s userId :
  (pendingSession pend = true →
   ∀ u, currentUser old = Some u → User.id u = userId →
        getLastSession userId s.2 = currentProblem old) →
  getLastSession userId (flushPending e pend old s).2 = getLastSession userId s.2.
Proof.
  intros Hsync. unfold flushPending.
  destruct (offeredByProblemView e && bool_decide (chatMounted old)); [| done].
  simpl.
  assert (getLastSession userId
            (if pendingMistakes pend then persistMistakes old s.2 else s.2)
          = getLastSession userId s.2) as Hm.
  { destruct (pendingMistakes pend); [| done]. apply getLastSession_persistMistakes. }
  destruct (pendingSession pend); [| done].
  rewrite <- Hm. apply getLastSession_persistSession.
  intros u Hu Hid. rewrite Hm. by apply (Hsync eq_refl u).
Qed.

(** With nothing pending a step is the handler followed by the effects of
    the new render. *)
Lemma step_noPending e s :
  step e noPending s
  = let '(a, ls) := handle e s.1 s.2 in (a, runEffects a ls).
Proof.
  unfold step, flushPending. simpl. destruct (handle e s.1 s.2) as [a ls].
  by destruct (_ && _).
Qed.

Lemma flushPending_not_offered e pend old s :
  offeredByProblemView e = false → flushPending e pend old s = s.
Proof. intros He. unfold flushPending. by rewrite He. Qed.

(** X14.  After every step, whichever effects are pending, the stored
    archive of a student who is logged in outside the Login state is the
    list held in memory.  The stored archive of every other user is what it
    was before the step; when the save-mistakes effect of the previous
    render is pending, this holds of the user of that render provided the
    stored archive was the list in memory. *)
Theorem step_archive_sync e pend a ls :
  (∀ u, currentUser (step e pend (a, ls)).1 = Some u →
        User.role u = student →
        appState (step e pend (a, ls)).1 ≠ Login →
        getUserMistakes (User.id u) (step e pend (a, ls)).2
        = activeMistakes (step e pend (a, ls)).1)
  ∧ (∀ userId,
       (∀ u, currentUser (step e pend (a, ls)).1 = Some u → User.id u ≠ userId) →
       (pendingMistakes pend = true →
        ∀ u, currentUser a = Some u → User.id u = userId →
             getUserMistakes userId ls = activeMistakes a) →
       getUserMistakes userId (step e pend (a, ls)).2 = getUserMistakes userId ls).
Proof.
  unfold step. simpl.
  pose proof (handle_data e a ls) as Hdata.
  split.
  - intros u Hu Hrole Hst. by apply runEffects_archive.
  - intros userId Hother Hsync.
    rewrite <- (getUserMistakes_data ls (handle e a ls).2 userId Hdata).
    rewrite <- (flushPending_archive e pend a (handle e a ls) userId).
    2: { intros Hp u Hu Hid.
         rewrite (getUserMistakes_data ls (handle e a ls).2 userId Hdata).
         by apply (Hsync Hp u). }
    destruct (flushPending e pend a (handle e a ls)) as [a' ls']. simpl in *.
    unfold runEffects, persistSession, persistMistakes.
    destruct (currentUser a') as [u |]; [| done].
    specialize (Hother u eq_refl).
    assert (getUserMistakes userId
              (if decide (User.role u = student ∧ appState a' ≠ Login)
               then saveUserMistakes (User.id u) (activeMistakes a') ls' else ls')
            = getUserMistakes userId ls') as Hmid.
    { destruct (decide _); [| done].
      rewrite getUserMistakes_saveUserMistakes. by rewrite decide_False. }
    destruct (decide (User.role u = student ∧ appState a' = ProblemActive));
      [by rewrite getUserMistakes_saveLastSession | done].
Qed.

Lemma runEffects_Login a ls : appState a = Login → runEffects a ls = ls.
Proof.
  intros Hst. unfold runEffects, persistSession, persistMistakes.
  destruct (currentUser a) as [u |]; [| done].
  rewrite (decide_False (P := _ ∧ appState a ≠ Login)) by (intros [_ ?]; done).
  rewrite decide_False; [done |]. intros [_ ?]. congruence.
Qed.

Lemma runEffects_no_user a ls : currentUser a = None → runEffects a ls = ls.
Proof.
  intros Hu. unfold runEffects, persistSession, persistMistakes. by rewrite Hu.
Qed.

(** X15.  A login that fails changes nothing: from the Login state the
    step leaves the machine and the storage exactly as they were. *)
Theorem failed_login_changes_nothing now username password pend a ls err :
  appState a = Login →
  login now username password ls = inl err →
  step (ELoginSubmit now username password) pend (a, ls) = (a, ls).
Proof.
  intros Hst Hlogin. unfold step, flushPending. simpl.
  unfold loginSubmit. rewrite Hlogin. simpl.
  by rewrite runEffects_Login.
Qed.

Lemma failed_login_changes_nothing_witness :
  step (ELoginSubmit 1 "test" "wrong") noPending
    (initialApp, initializeAdmin emptyStorage)
  = (initialApp, initializeAdmin emptyStorage).
Proof.
  apply (failed_login_changes_nothing _ _ _ _ _ _ ErrWrongPassword);
    [reflexivity | vm_compute; reflexivity].
Defined.

Lemma student_login_step now password pend a ls i u :
  firstWithUsername (getDBUsers ls) i u →
  hashPassword password = User.passwordHash u →
  User.role u = student →
  User.isFirstLogin u = false →
  let s' := step (ELoginSubmit now (User.username u) password) pend (a, ls) in
  (User.id <$> currentUser s'.1) = Some (User.id u)
  ∧ activeMistakes s'.1 = getUserMistakes (User.id u) ls
  ∧ getUserMistakes (User.id u) s'.2 = getUserMistakes (User.id u) ls
  ∧ getLastSession (User.id u) s'.2 = getLastSession (User.id u) ls
  ∧ match getLastSession (User.id u) ls with
    | Some p => appState s'.1 = ProblemActive ∧ currentProblem s'.1 = Some p
    | None => appState s'.1 = TopicSelection ∧ currentProblem s'.1 = currentProblem a
    end.
Proof.
  intros Hfirst Hhash Hrole Hflag.
  pose proof (login_found now (User.username u) password ls i u
                (findIndex_username _ _ _ Hfirst) (eq_sym Hhash)) as Hlogin.
  unfold step, flushPending. simpl. unfold loginSubmit. rewrite Hlogin. simpl.
  set (ls1 := set_current_user_cell _ _).
  assert (getUserMistakes (User.id u) ls1 = getUserMistakes (User.id u) ls) as Hm
    by reflexivity.
  assert (getLastSession (User.id u) ls1 = getLastSession (User.id u) ls) as Hs
    by reflexivity.
  set (a1 := handleLoginSuccess (loggedIn now u) (User.lastLogin u) a ls1).
  assert (currentUser a1 = Some (loggedIn now u)) as Hcur
    by apply handleLoginSuccess_currentUser.
  assert (appState a1 = match getLastSession (User.id u) ls with
                        | Some _ => ProblemActive | None => TopicSelection end)
    as Hst.
  { unfold a1. rewrite handleLoginSuccess_appState. simpl.
    by rewrite Hflag, Hrole, Hs. }
  assert (activeMistakes a1 = getUserMistakes (User.id u) ls) as Hact.
  { unfold a1, handleLoginSuccess. simpl. rewrite Hflag, Hrole, Hs.
    destruct (decide (User.lastLogin u ≠ None)), (getLastSession (User.id u) ls);
      simpl; exact Hm. }
  assert (currentProblem a1 = match getLastSession (User.id u) ls with
                              | Some p => Some p | None => currentProblem a end)
    as Hprob.
  { unfold a1, handleLoginSuccess. simpl. rewrite Hflag, Hrole, Hs.
    by destruct (decide (User.lastLogin u ≠ None)), (getLastSession (User.id u) ls). }
  assert (appState a1 ≠ Login) as Hnl.
  { rewrite Hst. by destruct (getLastSession (User.id u) ls). }
  split_and!.
  - by rewrite Hcur.
  - exact Hact.
  - rewrite <- Hact.
    apply (runEffects_archive a1 ls1 (loggedIn now u)); [done | exact Hrole | done].
  - unfold runEffects, persistSession. rewrite Hcur.
    destruct (decide _) as [[_ Hpa] | Hnpa].
    + simpl. rewrite getLastSession_saveLastSession, Hprob.
      rewrite Hst in Hpa. by destruct (getLastSession (User.id u) ls).
    + unfold persistMistakes. rewrite Hcur.
      destruct (decide _); [| done].
      unfold getLastSession, saveUserMistakes.
      by destruct (findIndex _ _) as [[? ?] |].
  - rewrite Hst, Hprob. by destruct (getLastSession (User.id u) ls).
Qed.

(** X16.  The login of a student who is past the first login loads the
    stored archive into memory and leaves it stored as it was; a stored
    last-session pointer takes priority: the machine resumes that problem
    in ProblemActive and keeps the pointer, and goes to TopicSelection only
    when there is none. *)
Theorem student_login_resumes now password pend a ls i u :
  firstWithUsername (getDBUsers ls) i u →
  hashPassword password = User.passwordHash u →
  User.role u = student →
  User.isFirstLogin u = false →
  let s' := step (ELoginSubmit now (User.username u) password) pend (a, ls) in
  (User.id <$> currentUser s'.1) = Some (User.id u)
  ∧ activeMistakes s'.1 = getUserMistakes (User.id u) ls
  ∧ getUserMistakes (User.id u) s'.2 = getUserMistakes (User.id u) ls
  ∧ getLastSession (User.id u) s'.2 = getLastSession (User.id u) ls
  ∧ match getLastSession (User.id u) ls with
    | Some p => appState s'.1 = ProblemActive ∧ currentProblem s'.1 = Some p
    | None => appState s'.1 = TopicSelection ∧ currentProblem s'.1 = currentProblem a
    end.
Proof. apply student_login_step. Qed.

Lemma student_login_resumes_witness :
  appState (step (ELoginSubmit 4 "test" "test") noPending
              (initialApp, initializeAdmin emptyStorage)).1 = TopicSelection.
Proof.
  assert (H := student_login_resumes 4 "test" noPending initialApp
                 (initializeAdmin emptyStorage) 1 testRecord).
  cbv zeta in H.
  destruct H as (_ & _ & _ & _ & H).
  - split; [reflexivity |].
    intros j v Hj Hlt. assert (j = 0) as -> by lia.
    vm_compute in Hj. injection Hj as <-. discriminate.
  - reflexivity.
  - reflexivity.
  - reflexivity.
  - change (getLastSession (User.id testRecord) (initializeAdmin emptyStorage))
      with (@None Problem.t) in H.
    by destruct H.
Defined.

(** X17.  On the login of a student whose first-login flag is set, the
    machine enters ChangePassword without loading the archive, and the
    persistence effect overwrites the student's stored archive with the
    list held in memory, which is empty at the Login state. *)
Theorem first_login_overwrites_archive now password pend a ls i u :
  firstWithUsername (getDBUsers ls) i u →
  hashPassword password = User.passwordHash u →
  User.role u = student →
  User.isFirstLogin u = true →
  let s' := step (ELoginSubmit now (User.username u) password) pend (a, ls) in
  appState s'.1 = ChangePassword
  ∧ activeMistakes s'.1 = activeMistakes a
  ∧ getUserMistakes (User.id u) s'.2 = activeMistakes a.
Proof.
  intros Hfirst Hhash Hrole Hflag.
  pose proof (login_found now (User.username u) password ls i u
                (findIndex_username _ _ _ Hfirst) (eq_sym Hhash)) as Hlogin.
  unfold step, flushPending. simpl. unfold loginSubmit. rewrite Hlogin. simpl.
  set (ls1 := set_current_user_cell _ _).
  set (a1 := handleLoginSuccess (loggedIn now u) (User.lastLogin u) a ls1).
  assert (a1 = setAppState ChangePassword
                 (setPreviousLoginTime (User.lastLogin u)
                    (setCurrentUser (Some (loggedIn now u)) a))) as Ha1.
  { unfold a1, handleLoginSuccess. simpl. by rewrite Hflag. }
  split_and!.
  - by rewrite Ha1.
  - by rewrite Ha1.
  - transitivity (activeMistakes a1); [| by rewrite Ha1].
    apply (runEffects_archive a1 ls1 (loggedIn now u));
      [by rewrite Ha1 | exact Hrole | by rewrite Ha1].
Qed.

Lemma first_login_overwrites_archive_witness :
  ∃ p ls,
    getUserMistakes "student_test_default" ls = [p]
    ∧ getUserMistakes "student_test_default"
        (step (ELoginSubmit 4 "test" "test") noPending (initialApp, ls)).2 = [].
Proof.
  set (p := Problem.mk "1700000000000" "微分方程" "y' = y" None None None Medium
              (Some 3%Z) None).
  set (u := User.mk "student_test_default" "test" (hashPassword "test")
              "测试学生" student true None None).
  set (ls := saveUserMistakes "student_test_default" [p]
               (saveDBUsers [adminRecord; u] emptyStorage)).
  exists p, ls. split; [reflexivity |].
  assert (H := first_login_overwrites_archive 4 "test" noPending initialApp ls 1 u).
  cbv zeta in H. destruct H as (_ & _ & H).
  - split; [reflexivity |].
    intros j v Hj Hlt. assert (j = 0) as -> by lia.
    vm_compute in Hj. injection Hj as <-. discriminate.
  - reflexivity.
  - reflexivity.
  - reflexivity.
  - exact H.
Defined.

(** The state after the logout handler and the pending effects. *)
Lemma logout_step_state pend a ls :
  let s' := step ELogout pend (a, ls) in
  appState s'.1 = Login
  ∧ currentUser s'.1 = None
  ∧ activeMistakes s'.1 = []
  ∧ showAchievements s'.1 = false
  ∧ currentProblem s'.1
    = (if bool_decide (chatMounted a)
       then messages ← pendingChat pend;
            (λ p, Problem.with_chatHistory p messages) <$> currentProblem a
       else None).
Proof.
  unfold step, flushPending. simpl.
  destruct (bool_decide (chatMounted a)); [| by split_and!].
  destruct (pendingChat pend) as [messages |]; simpl; [| by split_and!].
  unfold staleChatUpdate. destruct (currentProblem a) as [p |]; [| by split_and!].
  simpl. destruct (decide _); by split_and!.
Qed.

Lemma logout_step_storage pend a ls :
  let s' := step ELogout pend (a, ls) in
  getCurrentUser s'.2 = None
  ∧ getDBUsers s'.2 = getDBUsers ls
  ∧ (∀ userId,
       (pendingMistakes pend = true →
        ∀ u, currentUser a = Some u → User.id u = userId →
             getUserMistakes userId ls = activeMistakes a) →
       getUserMistakes userId s'.2 = getUserMistakes userId ls)
  ∧ (∀ userId,
       (pendingSession pend = true →
        ∀ u, currentUser a = Some u → User.id u = userId →
             getLastSession userId ls = currentProblem a) →
       getLastSession userId s'.2 = getLastSession userId ls).
Proof.
  pose proof (logout_step_state pend a ls) as (_ & Hnone & _).
  cbv zeta in *. unfold step in *. simpl in *.
  rewrite runEffects_no_user by exact Hnone.
  destruct (flushPending_cells ELogout pend a (handleLogout a ls)) as [Hu Hc].
  split_and!.
  - unfold getCurrentUser. by rewrite Hc.
  - unfold getDBUsers. by rewrite Hu.
  - intros userId Hsync.
    by rewrite (flushPending_archive ELogout pend a (handleLogout a ls) userId).
  - intros userId Hsync.
    by rewrite (flushPending_session ELogout pend a (handleLogout a ls) userId).
Qed.

(** X18.  Logging out returns to Login with no user, an empty in-memory
    archive and no overlay.  The in-memory problem is dropped unless the
    message-propagation effect of the previous render is pending: its
    [handleChatUpdate], run after [handleLogout], sets the problem back with
    the messages of the pane.  Of the storage the step clears the session
    identity only: the roster stays, and so do the archives and the
    last-session pointers (a pending persistence effect rewrites the one of
    the student who logs out with what the previous render held); a mount
    that follows does not resume anybody. *)
Theorem logout_keeps_stores pend a ls :
  let s' := step ELogout pend (a, ls) in
  appState s'.1 = Login
  ∧ currentUser s'.1 = None
  ∧ activeMistakes s'.1 = []
  ∧ showAchievements s'.1 = false
  ∧ currentProblem s'.1
    = (if bool_decide (chatMounted a)
       then messages ← pendingChat pend;
            (λ p, Problem.with_chatHistory p messages) <$> currentProblem a
       else None)
  ∧ getCurrentUser s'.2 = None
  ∧ getDBUsers s'.2 = getDBUsers ls
  ∧ (∀ userId,
       (pendingMistakes pend = true →
        ∀ u, currentUser a = Some u → User.id u = userId →
             getUserMistakes userId ls = activeMistakes a) →
       getUserMistakes userId s'.2 = getUserMistakes userId ls)
  ∧ (∀ userId,
       (pendingSession pend = true →
        ∀ u, currentUser a = Some u → User.id u = userId →
             getLastSession userId ls = currentProblem a) →
       getLastSession userId s'.2 = getLastSession userId ls)
  ∧ mount s'.1 s'.2 = s'.1.
Proof.
  pose proof (logout_step_state pend a ls) as (H1 & H2 & H3 & H4 & H5).
  pose proof (logout_step_storage pend a ls) as (H6 & H7 & H8 & H9).
  cbv zeta in *. split_and!; try done.
  unfold mount. by rewrite H6.
Qed.

(** X19.  Session continuity across logout: a student in an active problem
    whose archive and pointer are stored logs out and in again (past the
    first login) and is back in ProblemActive on the same problem with the
    same archive in memory, whichever effects were pending at the logout
    (a pending persist-session effect writes the problem of the previous
    render, which is the stored one). *)
Theorem logout_login_resumes now password pend pend' a ls i u v p :
  currentUser a = Some u →
  getUserMistakes (User.id u) ls = activeMistakes a →
  getLastSession (User.id u) ls = Some p →
  (pendingSession pend = true → currentProblem a = Some p) →
  firstWithUsername (getDBUsers ls) i v →
  User.id v = User.id u →
  hashPassword password = User.passwordHash v →
  User.role v = student →
  User.isFirstLogin v = false →
  let s' := step (ELoginSubmit now (User.username v) password) pend'
              (step ELogout pend (a, ls)) in
  appState s'.1 = ProblemActive
  ∧ currentProblem s'.1 = Some p
  ∧ activeMistakes s'.1 = activeMistakes a
  ∧ getUserMistakes (User.id u) s'.2 = activeMistakes a
  ∧ getLastSession (User.id u) s'.2 = Some p.
Proof.
  intros Hu Harch Hptr Hpend Hfirst Hid Hhash Hrole Hflag.
  pose proof (logout_step_storage pend a ls) as (_ & Husers & Hm & Hs).
  cbv zeta in *.
  specialize (Hm (User.id u) (λ _ _ _ _, Harch)).
  specialize (Hs (User.id u)
                (λ Hp _ _ _, eq_trans Hptr (eq_sym (Hpend Hp)))).
  destruct (step ELogout pend (a, ls)) as [a2 ls2]. simpl in *.
  rewrite <- Husers in Hfirst.
  assert (H := student_login_step now password pend' a2 ls2 i v
                 Hfirst Hhash Hrole Hflag).
  cbv zeta in H. rewrite Hid in H.
  rewrite Hm, Hs, Harch, Hptr in H.
  destruct H as (_ & Hact & Hst & Hs' & Hpa & Hp).
  split_and!; done.
Qed.

Lemma logout_login_resumes_witness :
  ∃ p a ls,
    currentProblem a = Some p
    ∧ currentProblem
        (step (ELoginSubmit 9 "test" "test") noPending
           (step ELogout (mkPending true true (Some [])) (a, ls))).1
      = Some p.
Proof.
  set (p := Problem.mk "1700000000000" "微分方程" "y' = y" None None None Medium
              None None).
  set (a := mkApp (Some testRecord) ProblemActive (Some p) false [] false None None).
  set (ls := runEffects a (initializeAdmin emptyStorage)).
  exists p, a, ls. split; [reflexivity |].
  assert (H := logout_login_resumes 9 "test" (mkPending true true (Some []))
                 noPending a ls 1 testRecord testRecord p).
  cbv zeta in H. destruct H as (_ & H & _).
  - reflexivity.
  - reflexivity.
  - reflexivity.
  - reflexivity.
  - split; [reflexivity |].
    intros j v Hj Hlt. assert (j = 0) as -> by lia.
    vm_compute in Hj. injection Hj as <-. discriminate.
  - reflexivity.
  - reflexivity.
  - reflexivity.
  - reflexivity.
  - exact H.
Defined.

(** X20.  The back action of the problem pane, for a student on an active
    problem [p], returns to TopicSelection.  With no effect of the previous
    render pending it clears the stored last-session pointer and the
    in-memory problem.  A pending persist-session effect runs after the
    handler and writes [p] back as the pointer; a pending
    message-propagation effect sets the in-memory problem back to [p] with
    the messages of the pane.  The archive keeps its ids, and the stored
    archive is the one in memory.  Navigating to TopicSelection from the
    header never clears the pointer. *)
Theorem problemBack_pointer pend a ls u p :
  currentUser a = Some u →
  User.role u = student →
  appState a = ProblemActive →
  currentProblem a = Some p →
  let s' := step EProblemBack pend (a, ls) in
  appState s'.1 = TopicSelection
  ∧ currentProblem s'.1 = (Problem.with_chatHistory p <$> pendingChat pend)
  ∧ getLastSession (User.id u) s'.2 = (if pendingSession pend then Some p else None)
  ∧ (Problem.id <$> activeMistakes s'.1) = (Problem.id <$> activeMistakes a)
  ∧ (pendingChat pend = None → activeMistakes s'.1 = activeMistakes a)
  ∧ getUserMistakes (User.id u) s'.2 = activeMistakes s'.1
  ∧ getLastSession (User.id u) (step EHeaderHome pend (a, ls)).2
    = (if pendingSession pend then Some p else getLastSession (User.id u) ls).
Proof.
  intros Hu Hrole Hst Hp.
  assert (bool_decide (chatMounted a) = true) as Hmounted.
  { apply bool_decide_eq_true. split; [done |]. rewrite Hp. by eexists. }
  assert (∀ a' : App, currentUser a' = Some u → appState a' = TopicSelection →
          ∀ ls', getLastSession (User.id u) (runEffects a' ls')
                 = getLastSession (User.id u) ls') as Heff.
  { intros a' Hu' Hst' ls'. unfold runEffects, persistSession. rewrite Hu'.
    rewrite decide_False by (intros [_ ?]; congruence).
    apply getLastSession_persistMistakes. }
  assert (∀ ls', getLastSession (User.id u)
                   (if pendingSession pend
                    then persistSession a
                           (if pendingMistakes pend then persistMistakes a ls' else ls')
                    else if pendingMistakes pend then persistMistakes a ls' else ls')
                 = if pendingSession pend then Some p
                   else getLastSession (User.id u) ls') as Hflush.
  { intros ls'. destruct (pendingSession pend).
    - unfold persistSession. rewrite Hu, decide_True by done.
      by rewrite getLastSession_saveLastSession.
    - destruct (pendingMistakes pend); [| done].
      apply getLastSession_persistMistakes. }
  assert (∀ a0 : App, currentUser a0 = Some u → appState a0 = TopicSelection →
          activeMistakes a0 = activeMistakes a →
          let a' := match pendingChat pend with
                    | Some messages => staleChatUpdate messages a a0
                    | None => a0
                    end in
          currentUser a' = Some u ∧ appState a' = TopicSelection
          ∧ (Problem.id <$> activeMistakes a') = (Problem.id <$> activeMistakes a)
          ∧ (pendingChat pend = None → activeMistakes a' = activeMistakes a)
          ∧ currentProblem a'
            = match pendingChat pend with
              | Some messages => Some (Problem.with_chatHistory p messages)
              | None => currentProblem a0
              end) as Hchat.
  { intros a0 Hu0 Hst0 Hact0. simpl.
    destruct (pendingChat pend) as [messages |]; [| by rewrite Hact0].
    unfold staleChatUpdate. rewrite Hp.
    destruct (decide _); simpl; rewrite ?Hact0;
      rewrite ?(ids_replace (Problem.with_chatHistory p messages));
      by split_and!. }
  unfold step, flushPending. simpl. rewrite Hmounted. simpl.
  unfold problemBack. rewrite Hu. simpl.
  destruct (Hchat (setCurrentProblem None (setAppState TopicSelection a)))
    as (Hu1 & Hst1 & Hids1 & Hact1 & Hp1); [done .. |].
  destruct (Hchat (setAppState TopicSelection a))
    as (Hu2 & Hst2 & _); [done .. |].
  split_and!.
  - exact Hst1.
  - rewrite Hp1. by destruct (pendingChat pend).
  - rewrite Heff by done. rewrite Hflush.
    destruct (pendingSession pend); [done |].
    exact (getLastSession_saveLastSession (User.id u) None ls).
  - exact Hids1.
  - exact Hact1.
  - apply (runEffects_archive _ _ u); [done | done | by rewrite Hst1].
  - rewrite Heff by done. apply Hflush.
Qed.

Lemma problemBack_pointer_witness :
  ∃ p a ls,
    getLastSession "student_test_default" ls = Some p
    ∧ getLastSession "student_test_default"
        (step EProblemBack noPending (a, ls)).2 = None
    ∧ getLastSession "student_test_default"
        (step EProblemBack (mkPending false true (Some [])) (a, ls)).2 = Some p
    ∧ currentProblem (step EProblemBack (mkPending false true (Some [])) (a, ls)).1
      = Some (Problem.with_chatHistory p []).
Proof.
  set (p := Problem.mk "1700000000000" "微分方程" "y' = y" None None None Medium
              None None).
  set (a := mkApp (Some testRecord) ProblemActive (Some p) false [] false None None).
  set (ls := runEffects a (initializeAdmin emptyStorage)).
  exists p, a, ls. split; [reflexivity |].
  assert (H := problemBack_pointer noPending a ls testRecord p
                 eq_refl eq_refl eq_refl eq_refl).
  assert (H' := problemBack_pointer (mkPending false true (Some [])) a ls testRecord p
                  eq_refl eq_refl eq_refl eq_refl).
  cbv zeta in H, H'.
  destruct H as (_ & _ & H & _). destruct H' as (_ & Hp' & H' & _).
  split_and!; [exact H | exact H' | exact Hp'].
Defined.

(** ** The archive in memory, further *)

Lemma handleChatUpdate_fixed messages a q :
  currentProblem a = Some q →
  Problem.with_chatHistory q messages = q →
  (λ m, if decide (Problem.id m = Problem.id q) then q else m) <$> activeMistakes a
  = activeMistakes a →
  handleChatUpdate messages a = a.
Proof.
  intros Hcur Hq Hfix. unfold handleChatUpdate. rewrite Hcur, Hq.
  destruct a as [cu st cp lo am sh pl ss]. simpl in *. subst cp.
  destruct (decide _); simpl; [by rewrite Hfix | done].
Qed.

(** X21.  A chat update stores the messages on the current problem and
    replaces every archived entry of the same id by that updated problem;
    entries of other ids, the order and the ids of the archive are as
    before, and the navigation state is unchanged.  Repeating the update
    with the same messages changes nothing more. *)
Theorem handleChatUpdate_propagates messages a p :
  currentProblem a = Some p →
  let q := Problem.with_chatHistory p messages in
  let a' := handleChatUpdate messages a in
  currentProblem a' = Some q
  ∧ Problem.chatHistory q = Some messages
  ∧ (∀ i m, activeMistakes a !! i = Some m →
            activeMistakes a' !! i
            = Some (if decide (Problem.id m = Problem.id p) then q else m))
  ∧ Problem.id <$> activeMistakes a' = Problem.id <$> activeMistakes a
  ∧ appState a' = appState a
  ∧ handleChatUpdate messages a' = a'.
Proof.
  intros Hp q a'.
  assert (activeMistakes a'
          = (λ m, if decide (Problem.id m = Problem.id p) then q else m)
              <$> activeMistakes a) as Hact.
  { unfold a', handleChatUpdate. rewrite Hp. simpl.
    destruct (decide (hasId (Problem.id p) (activeMistakes a))) as [Hhas | Hno];
      [reflexivity |].
    simpl. symmetry. etrans; [| apply list_fmap_id].
    apply list_fmap_ext. intros i m Hm. simpl.
    destruct (decide (Problem.id m = Problem.id p)) as [Heq | ?]; [| done].
    exfalso. apply Hno. unfold hasId, some. apply Exists_exists.
    exists m. split; [by eapply list_elem_of_lookup_2 | done]. }
  assert (currentProblem a' = Some q) as Hcur.
  { unfold a', handleChatUpdate. rewrite Hp. simpl. by destruct (decide _). }
  assert (appState a' = appState a) as Hst.
  { unfold a', handleChatUpdate. rewrite Hp. simpl. by destruct (decide _). }
  split_and!.
  - exact Hcur.
  - reflexivity.
  - intros i m Hm. by rewrite Hact, list_lookup_fmap, Hm.
  - rewrite Hact. apply (ids_replace q).
  - exact Hst.
  - apply (handleChatUpdate_fixed messages a' q); [exact Hcur | reflexivity |].
    rewrite Hact, <- list_fmap_compose.
    apply list_fmap_ext. intros i m _. simpl.
    destruct (decide (Problem.id m = Problem.id p)) as [Heq | Hne].
    + by rewrite decide_True.
    + by rewrite decide_False.
Qed.

Lemma handleChatUpdate_propagates_witness :
  let p := Problem.mk "1700000000000" "微分方程" "y' = y" None None None Medium
             None None in
  let a := mkApp (Some testRecord) ProblemActive (Some p) false
             [Problem.with_timestamp p 4] false None None in
  let msg := Message.mk "1" SenderUser "hi" None None None in
  activeMistakes (handleChatUpdate [msg] a) !! 0
  = Some (Problem.with_chatHistory p [msg]).
Proof.
  intros p a msg.
  assert (H := handleChatUpdate_propagates [msg] a p eq_refl).
  cbv zeta in H. destruct H as (_ & _ & H & _).
  exact (H 0 (Problem.with_timestamp p 4) eq_refl).
Defined.

(** X22.  For a student whose current problem is not archived, toggling
    twice restores the archive: the first toggle puts the problem at the
    head with the time of the toggle, the second removes it again. *)
Theorem toggleMistake_twice now1 now2 a p u :
  currentProblem a = Some p →
  currentUser a = Some u →
  User.role u = student →
  ¬ hasId (Problem.id p) (activeMistakes a) →
  activeMistakes (toggleMistake now1 a)
  = Problem.with_timestamp p now1 :: activeMistakes a
  ∧ toggleMistake now2 (toggleMistake now1 a) = a.
Proof.
  intros Hp Hu Hrole Hno.
  assert (toggleMistake now1 a
          = setActiveMistakes (Problem.with_timestamp p now1 :: activeMistakes a) a)
    as H1.
  { unfold toggleMistake. rewrite Hp, Hu.
    rewrite decide_False by (by intros ?). by rewrite decide_False. }
  split; [by rewrite H1 |].
  rewrite H1. unfold toggleMistake. simpl. rewrite Hp, Hu.
  rewrite decide_False by (by intros ?).
  rewrite decide_True by (by apply Exists_cons_hd).
  unfold removeId. rewrite filter_cons_False by (by intros ?).
  rewrite filter_all.
  - by destruct a.
  - intros m Hm Heq. apply Hno. unfold hasId, some. apply Exists_exists. by exists m.
Qed.

Lemma toggleMistake_twice_witness :
  let p := Problem.mk "1700000000000" "微分方程" "y' = y" None None None Medium
             None None in
  let a := mkApp (Some testRecord) ProblemActive (Some p) false [] false None None in
  toggleMistake 6 (toggleMistake 5 a) = a.
Proof.
  intros p a.
  apply (toggleMistake_twice 5 6 a p testRecord); try reflexivity.
  unfold hasId, some. simpl. by intros ?%Exists_nil.
Defined.

(** ** The progression calculator, further *)

Lemma level_remainder (c : nat) : c - (level c - 1) * 3 = c mod 3.
Proof.
  unfold level. pose proof (Nat.div_mod_eq c 3). lia.
Qed.

Lemma progressPercent_cases (c : nat) :
  progressPercent c
  = match c mod 3 with
    | O => Dyadic.mk 0 0
    | S O => Dyadic.mk 4803839602528528384 57
    | _ => Dyadic.mk 4803839602528528384 56
    end.
Proof.
  assert (c mod 3 < 3)%nat as Hr by (apply Nat.mod_upper_bound; lia).
  unfold progressPercent. rewrite level_remainder.
  destruct (c mod 3) as [| [| [| r]]]; [by vm_compute .. | lia].
Qed.

(** X23.  The level is at least 1 and the next threshold lies one to three
    problems ahead.  The progress within the level, computed in doubles, is
    0 on a multiple of three and otherwise the double
    [2345624805922133 / 2 ^ 46] (printed 33.33333333333333) or its double
    (printed 66.66666666666666): just below one and two thirds of 100.  It
    is never negative and never reaches 100, so the cap at 100 is never the
    value shown. *)
Theorem progress_within_level (c : nat) :
  (1 ≤ level c)%nat
  ∧ (c < nextLevelThreshold c)%nat
  ∧ (nextLevelThreshold c ≤ c + 3)%nat
  ∧ (Dyadic.toQ (progressPercent c)
     == match c mod 3 with
        | O => 0
        | S O => 2345624805922133 # 70368744177664
        | _ => 2345624805922133 # 35184372088832
        end)%Q
  ∧ (0 <= Dyadic.toQ (progressPercent c))%Q
  ∧ (Dyadic.toQ (progressPercent c) < 100)%Q
  ∧ (c mod 3 ≠ 0%nat →
     (Dyadic.toQ (progressPercent c) < inject_Z (Z.of_nat (c mod 3)) * 100 / 3)%Q).
Proof.
  assert (c mod 3 < 3)%nat as Hr by (apply Nat.mod_upper_bound; lia).
  pose proof (Nat.div_mod_eq c 3) as Hdm.
  rewrite progressPercent_cases.
  unfold nextLevelThreshold, level. split_and!; try lia.
  - destruct (c mod 3) as [| [| [| r]]]; [by vm_compute .. | lia].
  - destruct (c mod 3) as [| [| [| r]]]; [by vm_compute .. | lia].
  - destruct (c mod 3) as [| [| [| r]]]; [by vm_compute .. | lia].
  - intros Hne. destruct (c mod 3) as [| [| [| r]]]; [done | by vm_compute .. | lia].
Qed.

(** With four problems archived the bar is drawn at 33.33333333333333
    per cent, not at a third of 100. *)
Example progressPercent_four :
  progressPercent 4 = Dyadic.mk 4803839602528528384 57
  ∧ (Dyadic.toQ (progressPercent 4) == 2345624805922133 # 70368744177664)%Q
  ∧ ¬ (Dyadic.toQ (progressPercent 4) == 100 # 3)%Q.
Proof. split_and!; by vm_compute. Qed.

Lemma loginCountOf_pos user : (1 ≤ loginCountOf user)%nat.
Proof.
  unfold loginCountOf. destruct (User.loginCount user) as [[| n] |]; lia.
Qed.

(** X24.  Whatever the user record and the archive, the first badge of the
    catalog is unlocked (an absent or zero login count reads 1), so the
    unlocked list is never empty and starts with it, and the next badge to
    earn is never that one. *)
Theorem newbie_always_unlocked user mistakes :
  Badge.id <$> head (unlockedBadges user mistakes) = Some "newbie"
  ∧ (1 ≤ length (unlockedBadges user mistakes))%nat
  ∧ Badge.id <$> nextBadge user mistakes ≠ Some "newbie".
Proof.
  pose proof (loginCountOf_pos user) as Hl.
  assert ((1 <=? loginCountOf user)%nat = true) as Hcond.
  { apply Nat.leb_le. lia. }
  unfold unlockedBadges, unlockedBadgesAt, nextBadge, BADGES.
  rewrite filter_cons_True by exact Hcond.
  split_and!; [reflexivity | simpl; lia |].
  destruct (list_find _ _) as [[j b] |] eqn:Hfind; [| discriminate].
  simpl. apply list_find_Some in Hfind as (Hj & Hlocked & _).
  apply list_elem_of_lookup_2 in Hj.
  repeat (apply elem_of_cons in Hj as [-> | Hj]); try discriminate.
  - cbn [Badge.condition] in Hlocked. congruence.
  - by apply elem_of_nil in Hj.
Qed.

Lemma size_list_to_set_le (l : list string) :
  (size (list_to_set (C := gset string) l) ≤ length l)%nat.
Proof.
  induction l as [| x l IH]; [by rewrite list_to_set_nil, size_empty |].
  rewrite list_to_set_cons, size_union_alt, size_singleton. simpl.
  assert (size (list_to_set (C := gset string) l ∖ {[x]})
          ≤ size (list_to_set (C := gset string) l))%nat.
  { apply subseteq_size. intros y [Hy _]%elem_of_difference. exact Hy. }
  lia.
Qed.

(** X25.  The number of distinct topics in an archive is at most the
    number of archived problems, is zero only for the empty archive, and
    is the number of topics that occur; so the explorer badge needs at
    least three archived problems. *)
Theorem uniqueTopics_bounds user mistakes :
  (uniqueTopics mistakes ≤ problemCount mistakes)%nat
  ∧ (uniqueTopics mistakes = 0%nat ↔ mistakes = [])
  ∧ uniqueTopics mistakes = length (remove_dups (Problem.topic <$> mistakes))
  ∧ ("explorer" ∈ Badge.id <$> unlockedBadges user mistakes →
     (3 ≤ problemCount mistakes)%nat).
Proof.
  assert (uniqueTopics mistakes ≤ problemCount mistakes)%nat as Hle.
  { unfold uniqueTopics, problemCount.
    etrans; [apply size_list_to_set_le | by rewrite length_fmap]. }
  split_and!.
  - exact Hle.
  - unfold uniqueTopics. split.
    + intros Hz%size_empty_inv. destruct mistakes as [| m l]; [done |].
      exfalso. rewrite fmap_cons, list_to_set_cons in Hz.
      apply (not_elem_of_empty (C := gset string) (Problem.topic m)).
      rewrite <- Hz. apply elem_of_union_l, elem_of_singleton. reflexivity.
    + intros ->. reflexivity.
  - unfold uniqueTopics.
    rewrite <- (size_list_to_set (C := gset string) (remove_dups _))
      by apply NoDup_remove_dups.
    f_equal. apply set_eq. intros x.
    by rewrite !elem_of_list_to_set, elem_of_remove_dups.
  - intros (b & Hid & Hb)%list_elem_of_fmap.
    unfold unlockedBadges, unlockedBadgesAt in Hb.
    apply list_elem_of_filter in Hb as [Hcond Hb].
    unfold BADGES in Hb.
    repeat (apply elem_of_cons in Hb as [-> | Hb]); try discriminate.
    + cbn [Badge.condition] in Hcond. apply Nat.leb_le in Hcond. lia.
    + by apply elem_of_nil in Hb.
Qed.

Lemma uniqueTopics_bounds_witness :
  (3 ≤ problemCount
         [Problem.mk "1" "微分方程" "" None None None Medium None None;
          Problem.mk "2" "解析几何" "" None None None Medium None None;
          Problem.mk "3" "级数与数列" "" None None None Medium None None])%nat.
Proof.
  apply (uniqueTopics_bounds
           (User.mk "u" "u" "" "" student false None None)).
  vm_compute.
  apply list_elem_of_further, list_elem_of_here.
Defined.

(** X26.  No badge is left to earn exactly when at least 50 problems are
    archived over at least 3 distinct topics, and exactly then all five
    badges are unlocked. *)
Theorem nextBadge_none user mistakes :
  (nextBadge user mistakes = None
   ↔ (50 ≤ problemCount mistakes)%nat ∧ (3 ≤ uniqueTopics mistakes)%nat)
  ∧ (nextBadge user mistakes = None ↔ unlockedBadges user mistakes = BADGES).
Proof.
  pose proof (loginCountOf_pos user) as Hl.
  set (c := problemCount mistakes). set (t := uniqueTopics mistakes).
  set (l := loginCountOf user) in *.
  assert (nextBadge user mistakes = None
          ↔ (50 ≤ c)%nat ∧ (3 ≤ t)%nat) as Hnone.
  { unfold nextBadge. fold c t l. rewrite fmap_None, list_find_None.
    unfold BADGES. rewrite !Forall_cons, Forall_nil. cbn [Badge.condition].
    rewrite !not_false_iff_true, !Nat.leb_le. lia. }
  split; [exact Hnone |]. rewrite Hnone.
  unfold unlockedBadges, unlockedBadgesAt. fold c t l. split.
  - intros [Hc Ht]. unfold BADGES.
    rewrite !filter_cons_True, filter_nil;
      [reflexivity | cbn [Badge.condition]; apply Nat.leb_le; lia ..].
  - intros Heq.
    assert (Forall (λ b, Badge.condition b c l t = true) BADGES) as Hall.
    { rewrite <- Heq at 1. apply Forall_forall.
      by intros b [? _]%list_elem_of_filter. }
    unfold BADGES in Hall. rewrite !Forall_cons in Hall.
    cbn [Badge.condition] in Hall. rewrite !Nat.leb_le in Hall. lia.
Qed.

(** ** The chat pane, further *)

(** X27.  [handleSubmit] never calls the auto-save when an attachment is
    selected, while a reply is pending, or when the text is blank: the
    archive and the rest of the machine state are then untouched by the
    submission. *)
Theorem autosave_never_fires now c a :
  is_Some (Chat.selectedAttachment c)
  ∨ Chat.isProcessing c = true
  ∨ blank (Chat.inputText c) = true →
  callsAutoSave c = false ∧ chatSubmit now c a = a.
Proof.
  intros H.
  assert (callsAutoSave c = false) as Hno.
  { unfold callsAutoSave, submitRejected.
    destruct H as [[att Hatt] | [Hproc | Hblank]].
    - rewrite Hatt. simpl. by rewrite andb_false_r.
    - rewrite Hproc. by rewrite orb_true_r.
    - rewrite Hblank. destruct (Chat.selectedAttachment c); simpl.
      + by rewrite andb_false_r.
      + reflexivity. }
  split; [exact Hno |]. unfold chatSubmit. by rewrite Hno.
Qed.

Lemma autosave_never_fires_witness :
  callsAutoSave (Chat.mk [] "太难了" None true) = false.
Proof.
  apply (autosave_never_fires 0 (Chat.mk [] "太难了" None true) initialApp).
  right. left. reflexivity.
Defined.

(** X28.  An accepted submission appends exactly one message, the user's,
    carrying the text and the attachment as entered, clears the input and
    the attachment and marks a reply as pending; a rejected one changes
    nothing.  In either case a submission repeated at once changes nothing
    more. *)
Theorem handleSubmit_effect now now' c :
  (submitRejected c = true → handleSubmit now c = c)
  ∧ (submitRejected c = false →
     ∃ msg,
       Chat.messages (handleSubmit now c) = Chat.messages c ++ [msg]
       ∧ Message.sender msg = SenderUser
       ∧ Message.text msg = Chat.inputText c
       ∧ Message.attachment msg = Chat.selectedAttachment c
       ∧ Chat.inputText (handleSubmit now c) = ""
       ∧ Chat.selectedAttachment (handleSubmit now c) = None
       ∧ Chat.isProcessing (handleSubmit now c) = true)
  ∧ handleSubmit now' (handleSubmit now c) = handleSubmit now c.
Proof.
  unfold handleSubmit at 1 2 3 4 5.
  destruct (submitRejected c) eqn:Hrej.
  - split_and!; [done | done |].
    unfold handleSubmit. by rewrite !Hrej.
  - split_and!; [done | intros _; by eexists |].
    unfold handleSubmit. rewrite Hrej. reflexivity.
Qed.

(** ** The password form *)

(** X29.  A password form submitted with a new password of at least six
    code units, typed twice alike, for the logged-in user (looked up in the
    roster by id) stores the new digest, clears the first-login flag, and leaves ChangePassword for the
    state of the user's role: CoachDashboard for a coach; for a student
    ProblemActive when a last-session pointer is stored and TopicSelection
    otherwise, with the stored archive loaded.  No achievement overlay is
    raised.  A shorter password or a mismatch changes nothing. *)
Theorem changePassword_leaves_form newPass confirmPass a ls i u cu :
  currentUser a = Some cu →
  User.id cu = User.id u →
  firstWithId (getDBUsers ls) i u →
  (6 ≤ utf16_length newPass)%nat →
  confirmPass = newPass →
  let s' := changePasswordSubmit newPass confirmPass a ls in
  getDBUsers s'.2 = <[i := rotated (hashPassword newPass) u]> (getDBUsers ls)
  ∧ currentUser s'.1 = Some (rotated (hashPassword newPass) u)
  ∧ getCurrentUser s'.2 = Some (rotated (hashPassword newPass) u)
  ∧ appState s'.1
    = match User.role u with
      | coach => CoachDashboard
      | student => match getLastSession (User.id u) ls with
                   | Some _ => ProblemActive
                   | None => TopicSelection
                   end
      end
  ∧ (User.role u = student → activeMistakes s'.1 = getUserMistakes (User.id u) ls)
  ∧ showAchievements s'.1 = showAchievements a
  ∧ (∀ p c, (utf16_length p < 6)%nat ∨ p ≠ c →
            changePasswordSubmit p c a ls = (a, ls)).
Proof.
  intros Hu Hcu Hid Hlen -> s'.
  assert (s' = (handleLoginSuccess (rotated (hashPassword newPass) u) None a
                  (set_current_user_cell (Some (rotated (hashPassword newPass) u))
                     (saveDBUsers (<[i := rotated (hashPassword newPass) u]>
                                     (getDBUsers ls)) ls)),
                set_current_user_cell (Some (rotated (hashPassword newPass) u))
                  (saveDBUsers (<[i := rotated (hashPassword newPass) u]>
                                  (getDBUsers ls)) ls))) as ->.
  { unfold s', changePasswordSubmit. rewrite Hu.
    rewrite (proj2 (Nat.ltb_ge _ _)) by lia.
    rewrite decide_False by (by intros ?). rewrite Hcu.
    by rewrite (updatePassword_found _ _ _ i u (findIndex_id _ _ _ Hid)). }
  cbn [fst snd].
  split_and!.
  - reflexivity.
  - apply handleLoginSuccess_currentUser.
  - reflexivity.
  - rewrite handleLoginSuccess_appState. reflexivity.
  - intros Hrole. unfold handleLoginSuccess. simpl. rewrite Hrole.
    by destruct (getLastSession _ _).
  - rewrite handleLoginSuccess_showAchievements. simpl.
    by destruct (User.role u).
  - intros p c Hbad. unfold changePasswordSubmit. rewrite Hu.
    destruct Hbad as [Hshort | Hne].
    + by rewrite (proj2 (Nat.ltb_lt _ _)) by lia.
    + destruct (_ <? _)%nat; [done |]. by rewrite decide_True.
Qed.

Lemma changePassword_leaves_form_witness :
  let u := User.mk "student_test_default" "test" (hashPassword "test")
             "测试学生" student true None None in
  let a := mkApp (Some u) ChangePassword None false [] false None None in
  appState (changePasswordSubmit "feynman" "feynman" a
              (saveDBUsers [adminRecord; u] emptyStorage)).1 = TopicSelection.
Proof.
  intros u a.
  assert (H := changePassword_leaves_form "feynman" "feynman" a
                 (saveDBUsers [adminRecord; u] emptyStorage) 1 u u).
  cbv zeta in H. destruct H as (_ & _ & _ & H & _).
  - reflexivity.
  - reflexivity.
  - split; [reflexivity |].
    intros j v Hj Hlt. assert (j = 0) as -> by lia.
    vm_compute in Hj. injection Hj as <-. discriminate.
  - vm_compute. lia.
  - reflexivity.
  - exact H.
Defined.

(** ** Topic selection, further *)

(** X30.  Whichever entry of [TOPICS] is selected, with any double in
    [0, 1) as the draw, the handler succeeds and enters ProblemActive with
    a fresh problem whose topic is one of the seven concrete entries (the
    selected entry itself unless it is the random-choice one), whose id is
    the decimal time of generation and which has no timestamp and no chat
    history; the archive is untouched and the loading flag is down. *)
Theorem handleTopicSelect_any_entry rnd response now topic a :
  UnitDouble.wf rnd →
  topic ∈ TOPICS →
  ∃ a' p,
    handleTopicSelect rnd response now topic a = Some a'
    ∧ appState a' = ProblemActive
    ∧ currentProblem a' = Some p
    ∧ Problem.topic p ∈ take 7 TOPICS
    ∧ (topic ≠ RANDOM_TOPIC → Problem.topic p = topic)
    ∧ Problem.id p = pretty now
    ∧ Problem.timestamp p = None
    ∧ Problem.chatHistory p = None
    ∧ activeMistakes a' = activeMistakes a
    ∧ currentUser a' = currentUser a
    ∧ loading a' = false.
Proof.
  intros Hwf Hin.
  assert (∃ selected, selectedTopic rnd topic = Some selected
                      ∧ selected ∈ take 7 TOPICS
                      ∧ (topic ≠ RANDOM_TOPIC → selected = topic))
    as (selected & Hsel & Hconcrete & Hsame).
  { unfold selectedTopic. destruct (decide (topic = RANDOM_TOPIC)) as [-> | Hne].
    - destruct (randomTopic_concrete rnd Hwf) as (t & Hlook & _ & Ht).
      exists t. by split_and!.
    - exists topic. split_and!; [done | | done].
      unfold TOPICS in Hin |- *. simpl.
      repeat (apply elem_of_cons in Hin as [-> | Hin];
              [first [done | repeat first [apply list_elem_of_here
                                          | apply list_elem_of_further]] |]).
      by apply elem_of_nil in Hin. }
  exists (setLoading false
            (setAppState ProblemActive
               (setCurrentProblem (Some (generateMathProblem response now selected)) a))),
         (generateMathProblem response now selected).
  unfold handleTopicSelect. rewrite Hsel.
  split_and!; try reflexivity; by destruct response.
Qed.

Lemma handleTopicSelect_any_entry_witness :
  ∃ a', handleTopicSelect (UnitDouble.mk 4503599627370496 1021) None
          1700000000000 "微分方程" initialApp = Some a'
        ∧ (Problem.topic <$> currentProblem a') = Some "微分方程".
Proof.
  destruct (handleTopicSelect_any_entry (UnitDouble.mk 4503599627370496 1021)
              None 1700000000000 "微分方程" initialApp)
    as (a' & p & Hh & _ & Hp & _ & Htopic & _).
  - split; by vm_compute.
  - unfold TOPICS. do 3 apply list_elem_of_further. apply list_elem_of_here.
  - exists a'. split; [exact Hh |]. rewrite Hp. simpl. f_equal.
    apply Htopic. discriminate.
Defined.
